(** * InputId: identifier sanitising and uniqueness resolution

    A shallow embedding of [src/functions.js] ([clean],
    [generateUniqueFromBaseId], [getOptionSelectElement]),
    [src/InputIdOptions.js] and the [InputId] class, followed by the
    properties established about them.

    Strings are ECMAScript strings: finite sequences of 16-bit code
    units.  The built-ins the code calls but does not define
    ([String.prototype.normalize], [String.prototype.toLowerCase] and the
    Unicode property classes [\p{L}] and [\p{M}]) are the operations of a
    class [Unicode]; what is known about them is stated in
    [UnicodeLaws].

    The regular expressions are given by their matchers and applied by
    one scanning function, [replaceFrom].  The document is the part of
    the DOM the code reads: a doctype and the answer of [getElementById]
    for each string.  The loops run on fuel; a call that throws or that
    has not returned when the fuel is used up is a [Completion] of its
    own.  The argument of the constructor is an option bag; the loop
    counter of the resolver is a natural number. *)

From Stdlib Require Import NArith List Bool Ascii String Lia DecimalN DecimalFacts.
From stdpp Require Import gmap list.

Local Open Scope N_scope.

(* ================================================================= *)
(** ** Strings as sequences of UTF-16 code units *)

Abbreviation JSString := (list N).

Fixpoint js (s : string) : JSString :=
  match s with
  | EmptyString => []
  | String a s' => N_of_ascii a :: js s'
  end.

Definition HYPHEN : N := 45.
Definition UNDERSCORE : N := 95.

Definition inRange (lo hi c : N) : bool := (lo <=? c) && (c <=? hi).

(** [0-9], [A-Z], [a-z] *)
Definition isDigit (c : N) : bool := inRange 48 57 c.
Definition isUpper (c : N) : bool := inRange 65 90 c.
Definition isLower (c : N) : bool := inRange 97 122 c.
Definition isAsciiLetter (c : N) : bool := isUpper c || isLower c.
Definition isAscii (c : N) : bool := c <? 128.

Definition isHighSurrogate (c : N) : bool := inRange 0xD800 0xDBFF c.
Definition isLowSurrogate (c : N) : bool := inRange 0xDC00 0xDFFF c.
Definition isSurrogate (c : N) : bool := inRange 0xD800 0xDFFF c.

Definition combineSurrogates (hi lo : N) : N :=
  0x10000 + (hi - 0xD800) * 0x400 + (lo - 0xDC00).

(** The code points of a string, as the string iterator and the [u]
    flag of a regular expression see them: a high surrogate followed by
    a low surrogate is one code point, any other unit stands for
    itself. *)
Fixpoint codePoints (s : JSString) : list N :=
  match s with
  | [] => []
  | c :: t =>
      match t with
      | l :: t' =>
          if isHighSurrogate c && isLowSurrogate l
          then combineSurrogates c l :: codePoints t'
          else c :: codePoints t
      | [] => [c]
      end
  end.

Definition encodeCodePoint (cp : N) : JSString :=
  if cp <? 0x10000 then [cp]
  else [0xD800 + (cp - 0x10000) / 0x400; 0xDC00 + (cp - 0x10000) mod 0x400].

Definition fromCodePoints (l : list N) : JSString :=
  flat_map encodeCodePoint l.

(* ================================================================= *)
(** ** The built-ins of the host *)

Class Unicode := {
  (** [s.normalize('NFKD')] *)
  normalizeNFKD : JSString -> JSString;
  (** membership of a code point in [\p{L}] *)
  isLetter : N -> bool;
  (** membership of a code point in [\p{M}] *)
  isMark : N -> bool;
  (** [s.toLowerCase()] *)
  toLowerCase : JSString -> JSString
}.

(** ASCII lower-casing, the restriction of [toLowerCase] to Basic Latin. *)
Definition asciiLower (c : N) : N := if isUpper c then c + 32 else c.

(** The host restricted to Basic Latin: it agrees with every host that
    satisfies [UnicodeLaws] on strings of ASCII units, which is where it
    is used (concrete evaluations). *)
Definition basicLatin : Unicode := {|
  normalizeNFKD := fun s => s;
  isLetter := isAsciiLetter;
  isMark := fun _ => false;
  toLowerCase := map asciiLower
|}.

(* ================================================================= *)
(** ** Global replacement with a regular expression

    [s.replace(re, rep)] with the [g] flag and no [u] flag scans the
    units from left to right.  At each index the pattern is tried; a
    match of length [S k] is replaced by [rep] and the scan resumes
    behind it, otherwise the unit is kept and the scan moves one unit
    on.  A pattern is given by its matcher: from whether the index is 0
    (for [^]) and the rest of the string from the index, the length of
    the match there, minus one.  None of the patterns of the code
    matches the empty string. *)

Definition Matcher := bool -> JSString -> option nat.

Fixpoint replaceFrom (re : Matcher) (rep : JSString)
    (atStart : bool) (pending : nat) (s : JSString) : JSString :=
  match s with
  | [] => []
  | c :: t =>
      match pending with
      | S d => replaceFrom re rep false d t
      | O =>
          match re atStart s with
          | Some k => rep ++ replaceFrom re rep false k t
          | None => c :: replaceFrom re rep false 0 t
          end
      end
  end.

Definition replaceAll (re : Matcher) (rep : JSString) (s : JSString) : JSString :=
  replaceFrom re rep true 0 s.

(** Number of hyphens a string starts with. *)
Fixpoint hyphenRun (s : JSString) : nat :=
  match s with
  | c :: t => if c =? HYPHEN then S (hyphenRun t) else O
  | [] => O
  end.

(** The pattern for the block of combining diacritical marks,
    U+0300 to U+036F, one unit at a time. *)
Definition combiningMarksRegex : Matcher := fun _ s =>
  match s with
  | c :: _ => if inRange 0x300 0x36F c then Some O else None
  | [] => None
  end.

(** [/[^0-9a-zA-Z_-]/g] *)
Definition legacyClass (c : N) : bool :=
  isDigit c || isLower c || isUpper c || (c =? UNDERSCORE) || (c =? HYPHEN).

Definition legacyInvalidRegex : Matcher := fun _ s =>
  match s with
  | c :: _ => if legacyClass c then None else Some O
  | [] => None
  end.

(** [/-(-+)/g]: a hyphen followed by one hyphen or more, as many as
    there are. *)
Definition hyphensRegex : Matcher := fun _ s =>
  match hyphenRun s with
  | S (S k) => Some (S k)
  | _ => None
  end.

(** [/^-+|-+$|^_|_$/g]: the four alternatives in their order. *)
Definition endsRegex : Matcher := fun atStart s =>
  match hyphenRun s with
  | S k =>
      if atStart then Some k
      else if Nat.eqb (S k) (List.length s) then Some k
      else None
  | O =>
      match s with
      | c :: t =>
          if c =? UNDERSCORE then
            if atStart then Some O
            else match t with [] => Some O | _ => None end
          else None
      | [] => None
      end
  end.

(* ================================================================= *)
(** ** [clean] *)

(** The [DocumentType] node of a document, as [clean] reads it. *)
Module DocumentType.
Record t := {
  name : JSString;
  publicId : JSString;
  systemId : JSString
}.
End DocumentType.

(** A string is falsy exactly when it is empty. *)
Definition truthy (s : JSString) : bool :=
  match s with [] => false | _ => true end.

Definition isHtml5 (doctype : DocumentType.t) : bool :=
  bool_decide (DocumentType.name doctype = js "html")
  && negb (truthy (DocumentType.publicId doctype))
  && negb (truthy (DocumentType.systemId doctype)).

Section Clean.
Context {U : Unicode}.

(** [/[^0-9\p{L}\p{M}_-]/u]: the class, on code points. *)
Definition html5Class (cp : N) : bool :=
  isDigit cp || isLetter cp || isMark cp || (cp =? UNDERSCORE) || (cp =? HYPHEN).

(** [.replace(/[^0-9\p{L}\p{M}_-]/ug, () => '-')]: with the [u] flag
    the scan goes code point by code point. *)
Definition replaceInvalidHtml5 (s : JSString) : JSString :=
  fromCodePoints
    (map (fun cp => if html5Class cp then cp else HYPHEN) (codePoints s)).

Definition replaceInvalid (doctype : DocumentType.t) (s : JSString) : JSString :=
  if isHtml5 doctype
  then replaceInvalidHtml5 s
  else replaceAll legacyInvalidRegex [HYPHEN] s.

(** The string before the end-stripping step. *)
Definition collapsed (uncleanedId : JSString) (doctype : DocumentType.t) : JSString :=
  replaceAll hyphensRegex [HYPHEN]
    (replaceInvalid doctype
       (replaceAll combiningMarksRegex [] (normalizeNFKD uncleanedId))).

(** The string after the end-stripping step, before lower-casing. *)
Definition stripped (uncleanedId : JSString) (doctype : DocumentType.t) : JSString :=
  replaceAll endsRegex [] (collapsed uncleanedId doctype).

Definition cleanedHtmlId (uncleanedId : JSString) (doctype : DocumentType.t) : JSString :=
  toLowerCase (stripped uncleanedId doctype).

(** [cleanedHtmlId[0].match(/[^a-zA-Z]/)] on a non-empty string. *)
Definition firstIsNotLetter (s : JSString) : bool :=
  match s with
  | c :: _ => negb (isAsciiLetter c)
  | [] => false
  end.

Definition clean (uncleanedId : JSString) (doctype : DocumentType.t)
    (fallback separator : JSString) : JSString :=
  let cleanedHtmlId := cleanedHtmlId uncleanedId doctype in
  if Nat.eqb (List.length cleanedHtmlId) 0 then fallback
  else if negb (isHtml5 doctype) && firstIsNotLetter cleanedHtmlId
       then fallback ++ separator ++ cleanedHtmlId
       else cleanedHtmlId.

End Clean.

Definition html5Doctype : DocumentType.t :=
  {| DocumentType.name := js "html";
     DocumentType.publicId := [];
     DocumentType.systemId := [] |}.

Definition html4Doctype : DocumentType.t :=
  {| DocumentType.name := js "html";
     DocumentType.publicId := js "-//W3C//DTD HTML 4.01 Transitional//EN";
     DocumentType.systemId := js "http://www.w3.org/TR/html4/loose.dtd" |}.

(* ================================================================= *)
(** ** Documents and elements

    Elements are objects, compared by identity ([===]): an element is
    its key together with the document that owns it.  A document is
    read through [doctype] and [getElementById] only; it has a doctype
    node ([clean] reads [doctype.name] without a test).  Documents are
    mutable and shared, so they live in a heap and are passed around by
    reference; the code never writes to them, the callers do (by
    setting the [id] of an element). *)

Definition DocumentRef := nat.

Record Element := {
  elementKey : nat;
  ownerDocument : DocumentRef
}.

#[global] Instance Element_eq_dec : EqDecision Element.
Proof. solve_decision. Defined.

Inductive Node :=
  | ElementNode (e : Element)
  | DocumentNode (d : DocumentRef).

Record Document := {
  doctype : DocumentType.t;
  (** the element [getElementById] answers with, for each identifier
      that has one *)
  elementsById : gmap JSString Element
}.

Definition Heap := DocumentRef -> Document.

Definition getElementById (doc : Document) (id : JSString) : option Element :=
  elementsById doc !! id.

(** [elementWithId === node] *)
Definition sameNode (elementWithId : Element) (node : Node) : bool :=
  match node with
  | ElementNode e => bool_decide (elementWithId = e)
  | DocumentNode _ => false
  end.

(** [node.ownerDocument || node]: the owner document of a document is
    [null]. *)
Definition ownerDocumentOf (node : Node) : DocumentRef :=
  match node with
  | ElementNode e => ownerDocument e
  | DocumentNode d => d
  end.

(** What the callers do with a generated identifier: [element.id = id],
    for an element of the document without an identifier, makes
    [getElementById(id)] answer [element]; removing the element frees
    its identifier.  [getElementById] answers the first element, in
    tree order, that carries the identifier, and the model keeps no tree
    order: this is the assignment of an identifier that no element
    holds, or that the element holds already, where the order does
    not matter. *)
Definition assignId (h : Heap) (d : DocumentRef) (id : JSString) (e : Element) : Heap :=
  fun d' =>
    if Nat.eqb d' d
    then {| doctype := doctype (h d); elementsById := <[id := e]> (elementsById (h d)) |}
    else h d'.

Definition releaseId (h : Heap) (d : DocumentRef) (id : JSString) : Heap :=
  fun d' =>
    if Nat.eqb d' d
    then {| doctype := doctype (h d); elementsById := delete id (elementsById (h d)) |}
    else h d'.

(* ================================================================= *)
(** ** Completions

    A call returns, throws, or is still running when the fuel is used
    up.  Fuel is spent by the loops only, one unit per iteration; in
    [generateUniqueFromBaseId] that is one unit per call of
    [getElementById]. *)

Inductive Thrown :=
  | ElementNotHTMLElement      (* TypeError, InputIdOptions.element *)
  | FallbackInvalid            (* TypeError, InputIdOptions.fallback *)
  | OwnerDocumentNotHTMLDocument (* TypeError, InputIdOptions.ownerDocument *)
  | SeparatorInvalid           (* RangeError, InputIdOptions.separator *)
  | UndefinedProperty          (* TypeError of the host: a property of undefined is read *)
  | ReadOnlyProperty.          (* TypeError of the host: a write to a frozen object *)

Inductive Completion (A : Type) :=
  | Normal (a : A)
  | Throw (e : Thrown)
  | OutOfFuel.

Arguments Normal {A} a.
Arguments Throw {A} e.
Arguments OutOfFuel {A}.

#[global] Instance Completion_bind : MBind Completion :=
  fun A B f c =>
    match c with
    | Normal a => f a
    | Throw e => Throw e
    | OutOfFuel => OutOfFuel
    end.

#[global] Instance Completion_ret : MRet Completion := fun A a => Normal a.

Definition returned {A : Type} (c : Completion A) : bool :=
  match c with
  | Normal _ => true
  | _ => false
  end.

(* ================================================================= *)
(** ** [generateUniqueFromBaseId] *)

Fixpoint digitUnits (d : Decimal.uint) : JSString :=
  match d with
  | Decimal.Nil => []
  | Decimal.D0 d => 48 :: digitUnits d
  | Decimal.D1 d => 49 :: digitUnits d
  | Decimal.D2 d => 50 :: digitUnits d
  | Decimal.D3 d => 51 :: digitUnits d
  | Decimal.D4 d => 52 :: digitUnits d
  | Decimal.D5 d => 53 :: digitUnits d
  | Decimal.D6 d => 54 :: digitUnits d
  | Decimal.D7 d => 55 :: digitUnits d
  | Decimal.D8 d => 56 :: digitUnits d
  | Decimal.D9 d => 57 :: digitUnits d
  end.

(** The decimal digits of the loop counter, as a template literal
    prints it.  The counter is a non-negative integer; the model does
    not bound it (a Number is exact up to 2^53). *)
Definition numberToString (n : N) : JSString := digitUnits (N.to_uint n).

Section Unique.
Context {U : Unicode}.

(** The loop, from its head: [attemptNumber] and [idAttempt] are the
    variables of the source, [getElementById] is the lookup of the
    owner document. *)
Fixpoint attemptLoop (fuel : nat) (getElementById : JSString -> option Element)
    (node : Node) (cleanedBaseId separator : JSString)
    (attemptNumber : N) (idAttempt : JSString) : Completion JSString :=
  match fuel with
  | O => OutOfFuel
  | S fuel' =>
      match getElementById idAttempt with
      | None => Normal idAttempt
      | Some elementWithId =>
          if sameNode elementWithId node then Normal idAttempt
          else attemptLoop fuel' getElementById node cleanedBaseId separator
                 (attemptNumber + 1)
                 (cleanedBaseId ++ separator ++ numberToString attemptNumber)
      end
  end.

Definition generateUniqueFromBaseId (fuel : nat) (h : Heap)
    (baseId : JSString) (node : Node) (fallback separator : JSString)
    : Completion JSString :=
  let ownerDocument := h (ownerDocumentOf node) in
  let cleanedBaseId := clean baseId (doctype ownerDocument) fallback separator in
  attemptLoop fuel (getElementById ownerDocument) node cleanedBaseId separator
    1 cleanedBaseId.

End Unique.

(** The [k]-th identifier the loop tries. *)
Definition attempt (cleanedBaseId separator : JSString) (k : nat) : JSString :=
  match k with
  | O => cleanedBaseId
  | S _ => cleanedBaseId ++ separator ++ numberToString (N.of_nat k)
  end.

(* ================================================================= *)
(** ** Option bags

    The argument of [new InputId(options)], as the getters of
    [InputIdOptions] read it: an object ([options instanceof Object])
    with the properties below; [None] is an absent property (for
    [element], [type], [name], [ownerDocument], [prefix], [formId],
    [parentNode], also a falsy one).  The heap holds HTML documents;
    any other value found where a document is expected is
    [NotHTMLDocument]. *)

Module HTMLElement.
Record t := {
  node : Element;
  (** [element.type] *)
  type : option JSString;
  (** [element.tagName] *)
  tagName : JSString;
  (** [element.dataset.name] *)
  datasetName : option JSString
}.
End HTMLElement.

Inductive ElementValue :=
  | AnHTMLElement (e : HTMLElement.t)
  | NotHTMLElement.

Inductive DocumentValue :=
  | AnHTMLDocument (d : DocumentRef)
  | NotHTMLDocument.

(** What [getOptionSelectElement] reads from [optionElement.parentNode]. *)
Module Ancestor.
Record t := {
  (** [undefined] on a node that is not an element *)
  tagName : option JSString;
  name : option JSString
}.
End Ancestor.

Module Options.
Record t := {
  element : option ElementValue;
  type : option JSString;
  name : option JSString;
  (** ['value' in options], and the value *)
  value : option JSString;
  ownerDocument : option DocumentValue;
  prefix : option JSString;
  (** [options.form && options.form.id] *)
  formId : option JSString;
  (** ['separator' in options], and the value *)
  separator : option JSString;
  (** ['fallback' in options], and the value *)
  fallback : option JSString;
  (** ['forceUniqueness' in options], and the value as a boolean *)
  forceUniqueness : option bool;
  parentNode : option Ancestor.t
}.

(** [{}] *)
Definition empty : t := {|
  element := None; type := None; name := None; value := None;
  ownerDocument := None; prefix := None; formId := None;
  separator := None; fallback := None; forceUniqueness := None;
  parentNode := None
|}.
End Options.

Definition truthyOpt (v : option JSString) : bool :=
  match v with
  | Some s => truthy s
  | None => false
  end.

(** [{...options, ...{type: type}}] and its likes: the bag with one
    property replaced. *)
Definition spreadType (options : Options.t) (type : JSString) : Options.t := {|
  Options.element := Options.element options;
  Options.type := Some type;
  Options.name := Options.name options;
  Options.value := Options.value options;
  Options.ownerDocument := Options.ownerDocument options;
  Options.prefix := Options.prefix options;
  Options.formId := Options.formId options;
  Options.separator := Options.separator options;
  Options.fallback := Options.fallback options;
  Options.forceUniqueness := Options.forceUniqueness options;
  Options.parentNode := Options.parentNode options
|}.

Definition spreadName (options : Options.t) (name : JSString) : Options.t := {|
  Options.element := Options.element options;
  Options.type := Options.type options;
  Options.name := Some name;
  Options.value := Options.value options;
  Options.ownerDocument := Options.ownerDocument options;
  Options.prefix := Options.prefix options;
  Options.formId := Options.formId options;
  Options.separator := Options.separator options;
  Options.fallback := Options.fallback options;
  Options.forceUniqueness := Options.forceUniqueness options;
  Options.parentNode := Options.parentNode options
|}.

Definition spreadValue (options : Options.t) (value : JSString) : Options.t := {|
  Options.element := Options.element options;
  Options.type := Options.type options;
  Options.name := Options.name options;
  Options.value := Some value;
  Options.ownerDocument := Options.ownerDocument options;
  Options.prefix := Options.prefix options;
  Options.formId := Options.formId options;
  Options.separator := Options.separator options;
  Options.fallback := Options.fallback options;
  Options.forceUniqueness := Options.forceUniqueness options;
  Options.parentNode := Options.parentNode options
|}.

Definition spreadForceUniqueness (options : Options.t) (forceUniqueness : bool)
    : Options.t := {|
  Options.element := Options.element options;
  Options.type := Options.type options;
  Options.name := Options.name options;
  Options.value := Options.value options;
  Options.ownerDocument := Options.ownerDocument options;
  Options.prefix := Options.prefix options;
  Options.formId := Options.formId options;
  Options.separator := Options.separator options;
  Options.fallback := Options.fallback options;
  Options.forceUniqueness := Some forceUniqueness;
  Options.parentNode := Options.parentNode options
|}.

(* ================================================================= *)
(** ** [getOptionSelectElement] *)

Section OptionSelect.
Context {U : Unicode}.

(** The [for] loop from its test [ancestor]; the update is
    [ancestor = optionElement.parentNode]. *)
Fixpoint getOptionSelectElementLoop (fuel : nat) (optionElement : Options.t)
    (ancestor : option Ancestor.t) : Completion (option Ancestor.t) :=
  match ancestor with
  | None => Normal None
  | Some a =>
      match fuel with
      | O => OutOfFuel
      | S fuel' =>
          match Ancestor.tagName a with
          | None => Throw UndefinedProperty
          | Some tagName =>
              if bool_decide (toLowerCase tagName = js "select")
              then Normal (Some a)
              else getOptionSelectElementLoop fuel' optionElement
                     (Options.parentNode optionElement)
          end
      end
  end.

Definition getOptionSelectElement (fuel : nat) (optionElement : Options.t)
    : Completion (option Ancestor.t) :=
  getOptionSelectElementLoop fuel optionElement (Options.parentNode optionElement).

End OptionSelect.

(* ================================================================= *)
(** ** [InputIdOptions]: the getters *)

(** [/^[a-zA-Z][a-zA-Z0-9_-]*$/g] matches the string. *)
Definition fallbackClass (c : N) : bool :=
  isLower c || isUpper c || isDigit c || (c =? UNDERSCORE) || (c =? HYPHEN).

Definition matchesFallbackRegex (s : JSString) : bool :=
  match s with
  | c :: t => isAsciiLetter c && forallb fallbackClass t
  | [] => false
  end.

(** [['_', '-', ''].includes(s)] *)
Definition isSeparator (s : JSString) : bool :=
  bool_decide (s = [UNDERSCORE]) || bool_decide (s = [HYPHEN]) || bool_decide (s = []).

Module InputIdOptions.
Section Getters.
Context {U : Unicode}.
Variable options : Options.t.

Definition element : Completion (option HTMLElement.t) :=
  match Options.element options with
  | Some (AnHTMLElement e) => Normal (Some e)
  | Some NotHTMLElement => Throw ElementNotHTMLElement
  | None => Normal None
  end.

Definition type : Completion (option JSString) :=
  if truthyOpt (Options.type options) then Normal (Options.type options)
  else
    element ← element;
    match element with
    | Some e =>
        if truthyOpt (HTMLElement.type e) then Normal (HTMLElement.type e)
        else if truthy (HTMLElement.tagName e)
             then Normal (Some (toLowerCase (HTMLElement.tagName e)))
             else Normal None
    | None => Normal None
    end.

Definition name (fuel : nat) : Completion (option JSString) :=
  if truthyOpt (Options.name options) then Normal (Options.name options)
  else
    element ← element;
    if match element with
       | Some e => truthyOpt (HTMLElement.datasetName e)
       | None => false
       end
    then Normal (element ≫= HTMLElement.datasetName)
    else
      type ← type;
      if bool_decide (type = Some (js "option")) then
        selectElement ← getOptionSelectElement fuel options;
        Normal (selectElement ≫= Ancestor.name)
      else Normal None.

Definition value : option JSString := Options.value options.

Definition ownerDocument (globalDocument : DocumentValue) : Completion DocumentRef :=
  ownerDocument ←
    match Options.ownerDocument options with
    | Some d => Normal d
    | None =>
        element ← element;
        match element with
        | Some e => Normal (AnHTMLDocument (ownerDocument (HTMLElement.node e)))
        | None => Normal globalDocument
        end
    end;
  match ownerDocument with
  | AnHTMLDocument d => Normal d
  | NotHTMLDocument => Throw OwnerDocumentNotHTMLDocument
  end.

Definition prefix : option JSString :=
  if truthyOpt (Options.prefix options) then Options.prefix options
  else if truthyOpt (Options.formId options) then Options.formId options
  else None.

Definition separator : Completion JSString :=
  match Options.separator options with
  | None => Normal [UNDERSCORE]
  | Some s => if isSeparator s then Normal s else Throw SeparatorInvalid
  end.

Definition fallback : Completion JSString :=
  match Options.fallback options with
  | None => Normal (js "f")
  | Some s => if matchesFallbackRegex s then Normal s else Throw FallbackInvalid
  end.

Definition forceUniqueness (fuel : nat) : Completion bool :=
  match Options.forceUniqueness options with
  | Some b => Normal b
  | None =>
      element ← element;
      match element with
      | Some _ => Normal true
      | None =>
          name ← name fuel;
          Normal (negb (truthyOpt name))
      end
  end.

End Getters.
End InputIdOptions.

(* ================================================================= *)
(** ** [InputId] *)

Fixpoint join (parts : list JSString) (separator : JSString) : JSString :=
  match parts with
  | [] => []
  | [p] => p
  | p :: rest => p ++ separator ++ join rest separator
  end.

Module InputId.

(** An instance: its fields, and whether [Object.freeze] was applied
    to it. *)
Record t := {
  _element : option HTMLElement.t;
  _fallback : JSString;
  _forceUniqueness : bool;
  _name : option JSString;
  _value : option JSString;
  _ownerDocument : DocumentRef;
  _prefix : option JSString;
  _separator : JSString;
  _type : option JSString;
  _string : option JSString;
  frozen : bool
}.

(** [this._string = s; Object.freeze(this)] *)
Definition memoize (this : t) (s : JSString) : t := {|
  _element := _element this;
  _fallback := _fallback this;
  _forceUniqueness := _forceUniqueness this;
  _name := _name this;
  _value := _value this;
  _ownerDocument := _ownerDocument this;
  _prefix := _prefix this;
  _separator := _separator this;
  _type := _type this;
  _string := Some s;
  frozen := true
|}.

(** A write to a property of an instance, in strict-mode code: it is
    refused once the instance is frozen. *)
Definition write (this : t) (update : t -> t) : Completion t :=
  if frozen this then Throw ReadOnlyProperty else Normal (update this).

Section Methods.
Context {U : Unicode}.

Definition constructor (fuel : nat) (globalDocument : DocumentValue)
    (options : Options.t) : Completion t :=
  element ← InputIdOptions.element options;
  fallback ← InputIdOptions.fallback options;
  forceUniqueness ← InputIdOptions.forceUniqueness options fuel;
  name ← InputIdOptions.name options fuel;
  let value := InputIdOptions.value options in
  ownerDocument ← InputIdOptions.ownerDocument options globalDocument;
  let prefix := InputIdOptions.prefix options in
  separator ← InputIdOptions.separator options;
  type ← InputIdOptions.type options;
  Normal {|
    _element := element;
    _fallback := fallback;
    _forceUniqueness := forceUniqueness;
    _name := name;
    _value := value;
    _ownerDocument := ownerDocument;
    _prefix := prefix;
    _separator := separator;
    _type := type;
    _string := None;
    frozen := false
  |}.

(** [['checkbox', 'radio', 'option'].includes(type)] *)
Definition isChoiceType (type : JSString) : bool :=
  bool_decide (type = js "checkbox") || bool_decide (type = js "radio")
  || bool_decide (type = js "option").

Definition toArray (this : t) : list JSString :=
  match _prefix this with Some p => [p] | None => [] end
  ++ (if truthyOpt (_name this) then
        match _name this with Some n => [n] | None => [] end
      else [])
  ++ match _type this, _value this with
     | Some type, Some value =>
         if truthy type && isChoiceType type then [value] else []
     | _, _ => []
     end.

Definition toString (fuel : nat) (h : Heap) (this : t) : Completion (JSString * t) :=
  match _string this with
  | None =>
      let id := join (toArray this) (_separator this) in
      s ← (if _forceUniqueness this
           then generateUniqueFromBaseId fuel h id
                  match _element this with
                  | Some e => ElementNode (HTMLElement.node e)
                  | None => DocumentNode (_ownerDocument this)
                  end
                  (_fallback this) (_separator this)
           else Normal (clean id (doctype (h (_ownerDocument this)))
                          (_fallback this) (_separator this)));
      Normal (s, memoize this s)
  | Some s => Normal (s, this)
  end.

Definition valueOf (fuel : nat) (h : Heap) (this : t) : Completion (JSString * t) :=
  toString fuel h this.

(** [toObject()]: an object with the keys [prefix], [type], [name],
    [value], [fallback], [separator], [ownerDocument] and
    [forceUniqueness]; the element is not among them.  A key that holds
    [null] is read by the getters like an absent one. *)
Definition toObject (this : t) : Options.t := {|
  Options.element := None;
  Options.type := _type this;
  Options.name := _name this;
  Options.value := _value this;
  Options.ownerDocument := Some (AnHTMLDocument (_ownerDocument this));
  Options.prefix := _prefix this;
  Options.formId := None;
  Options.separator := Some (_separator this);
  Options.fallback := Some (_fallback this);
  Options.forceUniqueness := Some (_forceUniqueness this);
  Options.parentNode := None
|}.

Definition withType (fuel : nat) (globalDocument : DocumentValue) (this : t)
    (type : JSString) : Completion t :=
  constructor fuel globalDocument (spreadType (toObject this) type).

Definition withName (fuel : nat) (globalDocument : DocumentValue) (this : t)
    (name : JSString) : Completion t :=
  constructor fuel globalDocument (spreadName (toObject this) name).

Definition withValue (fuel : nat) (globalDocument : DocumentValue) (this : t)
    (value : JSString) : Completion t :=
  constructor fuel globalDocument (spreadValue (toObject this) value).

Definition forceUniqueness (fuel : nat) (globalDocument : DocumentValue) (this : t)
    : Completion t :=
  constructor fuel globalDocument (spreadForceUniqueness (toObject this) true).

Definition ignoreUniqueness (fuel : nat) (globalDocument : DocumentValue) (this : t)
    : Completion t :=
  constructor fuel globalDocument (spreadForceUniqueness (toObject this) false).

(** [this._ownerDocument.getElementById(this.toString())] *)
Definition getElement (fuel : nat) (h : Heap) (this : t)
    : Completion (option Element * t) :=
  r ← toString fuel h this;
  Normal (getElementById (h (_ownerDocument this)) (fst r), snd r).

(** [element ? Array.from(element.labels) : []], where [labels] is the
    [labels] property of the elements: [None] on an element that has no
    such property, and [Array.from(undefined)] throws. *)
Definition getLabels (labels : Element -> option (list Element))
    (fuel : nat) (h : Heap) (this : t) : Completion (list Element * t) :=
  r ← getElement fuel h this;
  match fst r with
  | Some element =>
      match labels element with
      | Some l => Normal (l, snd r)
      | None => Throw UndefinedProperty
      end
  | None => Normal ([], snd r)
  end.

End Methods.
End InputId.

(* ================================================================= *)
(** ** The earlier [clean] and [generateUniqueFromBaseId]

    The versions of the two functions that stand beside the
    [export default] class.  In [clean] the patterns of the collapsing
    and of the end-stripping steps have no [g] flag, so each replaces
    its first match only.  In [generateUniqueFromBaseId] the loop is a
    [while (true)] whose counter starts at 0 and is incremented where
    the next identifier is built. *)

Module Earlier.

(** [s.replace(re, rep)] without the [g] flag: the leftmost match is
    replaced, the rest of the string is kept. *)
Fixpoint replaceFirstFrom (re : Matcher) (rep : JSString)
    (atStart : bool) (s : JSString) : JSString :=
  match s with
  | [] => []
  | c :: t =>
      match re atStart s with
      | Some k => rep ++ drop k t
      | None => c :: replaceFirstFrom re rep false t
      end
  end.

Definition replaceFirst (re : Matcher) (rep : JSString) (s : JSString) : JSString :=
  replaceFirstFrom re rep true s.

Section Functions.
Context {U : Unicode}.

Definition cleanedHtmlId (uncleanedId : JSString) (doctype : DocumentType.t) : JSString :=
  toLowerCase
    (replaceFirst endsRegex []
       (replaceFirst hyphensRegex [HYPHEN]
          (replaceInvalid doctype
             (replaceAll combiningMarksRegex [] (normalizeNFKD uncleanedId))))).

Definition clean (uncleanedId : JSString) (doctype : DocumentType.t)
    (fallback separator : JSString) : JSString :=
  let cleanedHtmlId := cleanedHtmlId uncleanedId doctype in
  if Nat.eqb (List.length cleanedHtmlId) 0 then fallback
  else if negb (isHtml5 doctype) && firstIsNotLetter cleanedHtmlId
       then fallback ++ separator ++ cleanedHtmlId
       else cleanedHtmlId.

Fixpoint attemptLoop (fuel : nat) (getElementById : JSString -> option Element)
    (node : Node) (cleanedBaseId separator : JSString)
    (attemptNumber : N) (idAttempt : JSString) : Completion JSString :=
  match fuel with
  | O => OutOfFuel
  | S fuel' =>
      match getElementById idAttempt with
      | None => Normal idAttempt
      | Some elementWithId =>
          if sameNode elementWithId node then Normal idAttempt
          else attemptLoop fuel' getElementById node cleanedBaseId separator
                 (attemptNumber + 1)
                 (cleanedBaseId ++ separator ++ numberToString (attemptNumber + 1))
      end
  end.

Definition generateUniqueFromBaseId (fuel : nat) (h : Heap)
    (baseId : JSString) (node : Node) (fallback separator : JSString)
    : Completion JSString :=
  let ownerDocument := h (ownerDocumentOf node) in
  let cleanedBaseId := clean baseId (doctype ownerDocument) fallback separator in
  attemptLoop fuel (getElementById ownerDocument) node cleanedBaseId separator
    0 cleanedBaseId.

End Functions.
End Earlier.

(* ================================================================= *)
(** ** What is known of the host *)

(** A Unicode scalar value: a code point that is not a surrogate. *)
Definition isScalarValue (c : N) : bool :=
  (c <? 0x110000) && negb (isSurrogate c).

(** Facts of the Unicode Character Database and of the ECMAScript
    string methods that the properties below rest on.  Basic Latin has
    no decomposition, its letters are [A-Za-z], it has no marks, and
    its lower-casing is [asciiLower]; letters and marks are scalar
    values (surrogates have the category Cs); the lower-case mapping of
    a digit, letter, mark, underscore or hyphen consists of letters and
    marks, or is the character itself. *)
Class UnicodeLaws (U : Unicode) : Prop := {
  normalizeNFKD_ascii : forall s,
    forallb isAscii s = true -> normalizeNFKD s = s;
  isLetter_ascii : forall c,
    isAscii c = true -> isLetter c = isAsciiLetter c;
  isMark_ascii : forall c,
    isAscii c = true -> isMark c = false;
  isLetter_scalar : forall c,
    isLetter c = true -> isScalarValue c = true;
  isMark_scalar : forall c,
    isMark c = true -> isScalarValue c = true;
  toLowerCase_ascii : forall s,
    forallb isAscii s = true -> toLowerCase s = map asciiLower s;
  toLowerCase_html5Class : forall s,
    forallb html5Class (codePoints s) = true ->
    forallb html5Class (codePoints (toLowerCase s)) = true
}.

(** The set of code points a result may consist of, by document mode. *)
Definition allowedCodePoint {U : Unicode} (doctype : DocumentType.t) (cp : N) : bool :=
  if isHtml5 doctype then html5Class cp else legacyClass cp.

(* ================================================================= *)
(** ** Callers *)

Section Callers.
Context {U : Unicode}.

(** Entities ask for an identifier from the same base one after the
    other: each request is made for a [node] (the entity itself, or its
    document when the identifier is generated before it is bound), and
    the identifier is given to the entity before the next request. *)
Fixpoint requestAll (fuel : nat) (h : Heap) (d : DocumentRef)
    (baseId fallback separator : JSString) (requests : list (Node * Element))
    : Completion (list JSString * Heap) :=
  match requests with
  | [] => Normal ([], h)
  | (node, holder) :: rest =>
      id ← generateUniqueFromBaseId fuel h baseId node fallback separator;
      r ← requestAll fuel (assignId h d id holder) d baseId fallback separator rest;
      Normal (id :: fst r, snd r)
  end.

(** The same entity derives its identifier again and again, each time
    taking the result as its [id]. *)
Fixpoint rederive (fuel : nat) (times : nat) (h : Heap)
    (baseId : JSString) (e : Element) (fallback separator : JSString)
    : Completion (list JSString) :=
  match times with
  | O => Normal []
  | S times' =>
      id ← generateUniqueFromBaseId fuel h baseId (ElementNode e) fallback separator;
      ids ← rederive fuel times' (assignId h (ownerDocument e) id e)
               baseId e fallback separator;
      Normal (id :: ids)
  end.

End Callers.

(** [String(new InputId(options))] *)
Definition stringOf {U : Unicode} (fuel : nat) (globalDocument : DocumentValue)
    (h : Heap) (options : Options.t) : Completion JSString :=
  this ← InputId.constructor fuel globalDocument options;
  r ← InputId.toString fuel h this;
  Normal (fst r).

(** The requests of a caller are well-formed for the document [d]. *)
Definition requestFor (d : DocumentRef) (r : Node * Element) : Prop :=
  fst r = DocumentNode d \/ (fst r = ElementNode (snd r) /\ ownerDocument (snd r) = d).

(** Documents and elements of the examples. *)
Definition emptyDocument : Document :=
  {| doctype := html5Doctype; elementsById := ∅ |}.

Definition emptyHeap : Heap := fun _ => emptyDocument.

Definition inputElement (k : nat) : Element :=
  {| elementKey := k; ownerDocument := 0%nat |}.

(* ================================================================= *)
(** ** Vocabulary of the properties *)

Section Loop.
Variable getElementById : JSString -> option Element.
Variable node : Node.
Variables cleanedBaseId separator : JSString.

(** The test that ends the loop, at the [k]-th identifier. *)
Definition exitsAt (k : nat) : bool :=
  match getElementById (attempt cleanedBaseId separator k) with
  | None => true
  | Some elementWithId => sameNode elementWithId node
  end.

(** The loop with its variables as they are when the [k]-th identifier
    is tested. *)
Definition loopAt (fuel k : nat) : Completion JSString :=
  attemptLoop fuel getElementById node cleanedBaseId separator
    (N.of_nat (S k)) (attempt cleanedBaseId separator k).

End Loop.

(** Hyphens and underscores: the units the collapsing and the
    stripping steps remove. *)
Definition isHU (c : N) : bool := (c =? HYPHEN) || (c =? UNDERSCORE).

(** [Dropped s s']: [s'] is [s] without some of its hyphens and
    underscores. *)
Inductive Dropped : JSString -> JSString -> Prop :=
  | Dropped_nil : Dropped [] []
  | Dropped_keep c s s' : Dropped s s' -> Dropped (c :: s) (c :: s')
  | Dropped_drop c s s' : isHU c = true -> Dropped s s' -> Dropped (c :: s) s'.

(** A pattern that matches hyphens and underscores only, replaced by
    nothing or by the first unit of the match. *)
Definition dropsOnly (re : Matcher) (rep : JSString) : Prop :=
  forall b c t k, re b (c :: t) = Some k ->
    ((rep = [] /\ isHU c = true) \/ rep = [c]) /\ forallb isHU (take k t) = true.

(** [Paired P s]: [s] is well-formed UTF-16 and its code points satisfy
    [P]. *)
Inductive Paired (P : N -> bool) : JSString -> Prop :=
  | Paired_nil : Paired P []
  | Paired_unit c s :
      isSurrogate c = false -> P c = true -> Paired P s -> Paired P (c :: s)
  | Paired_pair hi lo s :
      isHighSurrogate hi = true -> isLowSurrogate lo = true ->
      P (combineSurrogates hi lo) = true -> Paired P s -> Paired P (hi :: lo :: s).

Definition startsWithHyphen (s : JSString) : bool :=
  match s with
  | c :: _ => c =? HYPHEN
  | [] => false
  end.

(** No two hyphens in a row. *)
Fixpoint noHyphenPair (s : JSString) : bool :=
  match s with
  | c :: t => negb ((c =? HYPHEN) && startsWithHyphen t) && noHyphenPair t
  | [] => true
  end.

(** The node [toString] generates for: [this._element || this._ownerDocument]. *)
Definition nodeOf (this : InputId.t) : Node :=
  match InputId._element this with
  | Some e => ElementNode (HTMLElement.node e)
  | None => DocumentNode (InputId._ownerDocument this)
  end.

(** The document [toString] reads: the owner document of the node when
    uniqueness is asked for, [this._ownerDocument] otherwise. *)
Definition consultedDocument (this : InputId.t) : DocumentRef :=
  if InputId._forceUniqueness this
  then ownerDocumentOf (nodeOf this)
  else InputId._ownerDocument this.

(** In two states of the heap the document [d] has the same doctype and
    gives the same element to every identifier. *)
Definition sameIdentifiers (h1 h2 : Heap) (d : DocumentRef) : Prop :=
  doctype (h1 d) = doctype (h2 d)
  /\ forall id, getElementById (h1 d) id = getElementById (h2 d) id.

(** The fallback check in the words of the specification: the string is
    empty, or starts with a unit that is not a letter, or has a unit
    outside [a-zA-Z0-9_-]. *)
Definition fallbackFails (s : JSString) : Prop :=
  s = []
  \/ (exists c t, s = c :: t /\ isAsciiLetter c = false)
  \/ (exists c, c ∈ s /\ fallbackClass c = false).

(** Every check of the constructor passes. *)
Definition validOptions (globalDocument : DocumentValue) (options : Options.t) : Prop :=
  Options.element options <> Some NotHTMLElement
  /\ (forall s, Options.fallback options = Some s -> matchesFallbackRegex s = true)
  /\ (forall s, Options.separator options = Some s -> isSeparator s = true)
  /\ match Options.ownerDocument options with
     | Some v => v <> NotHTMLDocument
     | None =>
         match Options.element options with
         | Some _ => True
         | None => globalDocument <> NotHTMLDocument
         end
     end.

(** An instance of the examples: no element, no name, uniqueness
    asked for. *)
Definition anonymousInstance : InputId.t :=
  {| InputId._element := None; InputId._fallback := js "f";
     InputId._forceUniqueness := true; InputId._name := None;
     InputId._value := None; InputId._ownerDocument := 0%nat;
     InputId._prefix := None; InputId._separator := js "_";
     InputId._type := None; InputId._string := None; InputId.frozen := false |}.

(** The option bag [{type, name, value, prefix, separator, fallback}]
    of the examples, each property present or not. *)
Definition bag (type name value prefix separator fallback : option string)
    : Options.t := {|
  Options.element := None;
  Options.type := js <$> type;
  Options.name := js <$> name;
  Options.value := js <$> value;
  Options.ownerDocument := None;
  Options.prefix := js <$> prefix;
  Options.formId := None;
  Options.separator := js <$> separator;
  Options.fallback := js <$> fallback;
  Options.forceUniqueness := None;
  Options.parentNode := None
|}.

(** [{type: 'option', separator: 'x', parentNode: div}], where [div] is
    an element that is not a [select]. *)
Definition optionInDiv : Options.t := {|
  Options.element := None; Options.type := Some (js "option");
  Options.name := None; Options.value := None;
  Options.ownerDocument := None; Options.prefix := None;
  Options.formId := None; Options.separator := Some (js "x");
  Options.fallback := None; Options.forceUniqueness := None;
  Options.parentNode :=
    Some {| Ancestor.tagName := Some (js "DIV"); Ancestor.name := None |}
|}.

(** [{fallback: '0'}] *)
Definition digitFallback : Options.t := {|
  Options.element := None; Options.type := None; Options.name := None;
  Options.value := None; Options.ownerDocument := None;
  Options.prefix := None; Options.formId := None;
  Options.separator := None; Options.fallback := Some (js "0");
  Options.forceUniqueness := None; Options.parentNode := None
|}.

(** [0-9a-z_-]: what is left of [0-9a-zA-Z_-] after lower-casing. *)
Definition lowerClass (c : N) : bool :=
  isDigit c || isLower c || (c =? UNDERSCORE) || (c =? HYPHEN).

(** The fields of an instance that the constructor has checked. *)
Definition wellConfigured (this : InputId.t) : Prop :=
  matchesFallbackRegex (InputId._fallback this) = true
  /\ isSeparator (InputId._separator this) = true.

(** A falsy string read as [null]. *)
Definition falsyToNull (v : option JSString) : option JSString :=
  if truthyOpt v then v else None.

(** The instance a copy method builds from [this] with the type, the
    name, the value and the uniqueness flag given: no element, the
    other fields of [this], falsy strings read as [null], no string
    yet. *)
Definition copyWith (this : InputId.t) (type name value : option JSString)
    (forceUniqueness : bool) : InputId.t := {|
  InputId._element := None;
  InputId._fallback := InputId._fallback this;
  InputId._forceUniqueness := forceUniqueness;
  InputId._name := falsyToNull name;
  InputId._value := value;
  InputId._ownerDocument := InputId._ownerDocument this;
  InputId._prefix := falsyToNull (InputId._prefix this);
  InputId._separator := InputId._separator this;
  InputId._type := falsyToNull type;
  InputId._string := None;
  InputId.frozen := false
|}.

(** Whether the value is a part of the identifier: the type is one of
    [checkbox], [radio], [option]. *)
Definition usesValue (type : option JSString) : bool :=
  match type with
  | Some t => truthy t && InputId.isChoiceType t
  | None => false
  end.

(** The checks of the constructor, one by one, in the order in which
    its getters make them. *)
Definition elementChecked (options : Options.t) : Prop :=
  Options.element options <> Some NotHTMLElement.

Definition fallbackChecked (options : Options.t) : Prop :=
  forall s, Options.fallback options = Some s -> matchesFallbackRegex s = true.

Definition documentChecked (globalDocument : DocumentValue) (options : Options.t)
    : Prop :=
  match Options.ownerDocument options with
  | Some v => v <> NotHTMLDocument
  | None =>
      match Options.element options with
      | Some _ => True
      | None => globalDocument <> NotHTMLDocument
      end
  end.

Definition separatorChecked (options : Options.t) : Prop :=
  forall s, Options.separator options = Some s -> isSeparator s = true.

(** [{fallback: '', separator: 'x', ownerDocument: 1}]: three checks
    fail. *)
Definition allInvalid : Options.t := {|
  Options.element := None; Options.type := None;
  Options.name := None; Options.value := None;
  Options.ownerDocument := Some NotHTMLDocument; Options.prefix := None;
  Options.formId := None; Options.separator := Some [120];
  Options.fallback := Some []; Options.forceUniqueness := None;
  Options.parentNode := None
|}.

(** [element.id = id] has the effect [assignId] gives it: no element
    holds the identifier, or the element is the one that holds it. *)
Definition assignable (h : Heap) (d : DocumentRef) (id : JSString) (e : Element)
    : Prop :=
  getElementById (h d) id = None \/ getElementById (h d) id = Some e.

(** [{type: 'option', parentNode: fragment}], where [fragment] is a node
    that is not an element: it has no [tagName]. *)
Definition optionInFragment : Options.t := {|
  Options.element := None; Options.type := Some (js "option");
  Options.name := None; Options.value := None;
  Options.ownerDocument := None; Options.prefix := None;
  Options.formId := None; Options.separator := None;
  Options.fallback := None; Options.forceUniqueness := None;
  Options.parentNode :=
    Some {| Ancestor.tagName := None; Ancestor.name := None |}
|}.

(** An instance of the examples made for a text input, the element 1
    of the document 0: no name, uniqueness asked for. *)
Definition textInput : HTMLElement.t :=
  {| HTMLElement.node := inputElement 1; HTMLElement.type := Some (js "text");
     HTMLElement.tagName := js "INPUT"; HTMLElement.datasetName := None |}.

Definition ownInstance : InputId.t :=
  {| InputId._element := Some textInput; InputId._fallback := js "f";
     InputId._forceUniqueness := true; InputId._name := None;
     InputId._value := None; InputId._ownerDocument := 0%nat;
     InputId._prefix := None; InputId._separator := js "_";
     InputId._type := Some (js "text"); InputId._string := None;
     InputId.frozen := false |}.

(** An instance of the examples with the name ["User Name"], which
    does not ask for uniqueness. *)
Definition namedInstance : InputId.t :=
  {| InputId._element := None; InputId._fallback := js "f";
     InputId._forceUniqueness := false; InputId._name := Some (js "User Name");
     InputId._value := None; InputId._ownerDocument := 0%nat;
     InputId._prefix := None; InputId._separator := js "_";
     InputId._type := None; InputId._string := None; InputId.frozen := false |}.

(** [{type: 'radio', name: '2 Colors[]', value: 'Red', forceUniqueness: true}]
    and the instance the constructor makes of it in the document 0. *)
Definition coloursOptions : Options.t := {|
  Options.element := None; Options.type := Some (js "radio");
  Options.name := Some (js "2 Colors[]"); Options.value := Some (js "Red");
  Options.ownerDocument := None; Options.prefix := None;
  Options.formId := None; Options.separator := None;
  Options.fallback := None; Options.forceUniqueness := Some true;
  Options.parentNode := None
|}.

Definition coloursInstance : InputId.t :=
  {| InputId._element := None; InputId._fallback := js "f";
     InputId._forceUniqueness := true; InputId._name := Some (js "2 Colors[]");
     InputId._value := Some (js "Red"); InputId._ownerDocument := 0%nat;
     InputId._prefix := None; InputId._separator := js "_";
     InputId._type := Some (js "radio"); InputId._string := None;
     InputId.frozen := false |}.

(** A state of the heap in which the documents are HTML 4.01 and the
    element 1 holds the identifier ["f_2-colors-_red"]. *)
Definition html4Heap : Heap := fun _ =>
  {| doctype := html4Doctype;
     elementsById := {[ js "f_2-colors-_red" := inputElement 1 ]} |}.

(* ================================================================= *)
(** * Properties *)

(** ** Character classes *)

Lemma inRange_spec lo hi c : inRange lo hi c = true <-> lo <= c <= hi.
Proof. unfold inRange. rewrite andb_true_iff, !N.leb_le. tauto. Qed.

Lemma inRange_false lo hi c : inRange lo hi c = false <-> c < lo \/ hi < c.
Proof.
  unfold inRange. rewrite andb_false_iff, !N.leb_gt. tauto.
Qed.

Ltac classes :=
  unfold isScalarValue in *;
  unfold legacyClass, fallbackClass, isAsciiLetter, isDigit, isUpper, isLower,
    isAscii, isSurrogate, isHighSurrogate, isLowSurrogate,
    asciiLower, HYPHEN, UNDERSCORE in *;
  repeat match goal with
    | H : _ && _ = true |- _ => apply andb_true_iff in H; destruct H
    | H : _ || _ = true |- _ => apply orb_true_iff in H; destruct H
    | H : negb _ = true |- _ => apply negb_true_iff in H
    | H : inRange _ _ _ = true |- _ => apply inRange_spec in H
    | H : inRange _ _ _ = false |- _ => apply inRange_false in H
    | H : (_ =? _) = true |- _ => apply N.eqb_eq in H
    | H : (_ =? _) = false |- _ => apply N.eqb_neq in H
    | H : (_ <? _) = true |- _ => apply N.ltb_lt in H
    | H : (_ <? _) = false |- _ => apply N.ltb_ge in H
    end.

Lemma legacyClass_spec c :
  legacyClass c = true <->
  48 <= c <= 57 \/ 97 <= c <= 122 \/ 65 <= c <= 90 \/ c = 95 \/ c = 45.
Proof.
  unfold legacyClass, isDigit, isLower, isUpper, UNDERSCORE, HYPHEN.
  rewrite !orb_true_iff, !inRange_spec, !N.eqb_eq. tauto.
Qed.

Lemma fallbackClass_legacyClass c : fallbackClass c = legacyClass c.
Proof.
  unfold fallbackClass, legacyClass.
  destruct (isLower c), (isUpper c), (isDigit c); reflexivity.
Qed.

Lemma legacyClass_ascii c : legacyClass c = true -> isAscii c = true.
Proof.
  rewrite legacyClass_spec. unfold isAscii. rewrite N.ltb_lt. lia.
Qed.

Lemma legacyClass_not_high c : legacyClass c = true -> isHighSurrogate c = false.
Proof.
  rewrite legacyClass_spec. unfold isHighSurrogate. rewrite inRange_false. lia.
Qed.

Lemma legacyClass_asciiLower c : legacyClass c = true -> legacyClass (asciiLower c) = true.
Proof.
  rewrite !legacyClass_spec. unfold asciiLower, isUpper.
  destruct (inRange 65 90 c) eqn:E.
  - apply inRange_spec in E. lia.
  - apply inRange_false in E. lia.
Qed.

Lemma forallb_Forall {A} (P : A -> bool) (l : list A) :
  forallb P l = true <-> Forall (fun x => P x = true) l.
Proof.
  induction l as [|x l IH]; simpl.
  - split; [constructor | reflexivity].
  - rewrite andb_true_iff, IH, Forall_cons_iff. tauto.
Qed.

Lemma codePoints_no_high s :
  Forall (fun c => isHighSurrogate c = false) s -> codePoints s = s.
Proof.
  induction 1 as [|c t Hc Ht IH]; [reflexivity|].
  simpl. destruct t as [|l t']; [reflexivity|].
  rewrite Hc. simpl andb. cbv iota. f_equal. exact IH.
Qed.

(** ** Global replacement *)

Lemma replaceFrom_Forall (P : N -> Prop) re rep :
  Forall P rep ->
  forall s b p, Forall P s -> Forall P (replaceFrom re rep b p s).
Proof.
  intros Hrep s. induction s as [|c t IH]; intros b p Hs; simpl; [constructor|].
  apply Forall_cons_iff in Hs as [Hc Ht].
  destruct p as [|d]; [|auto].
  destruct (re b (c :: t)) as [k|].
  - apply Forall_app; auto.
  - constructor; auto.
Qed.

Lemma replaceAll_legacyInvalid s b p :
  Forall (fun c => legacyClass c = true)
    (replaceFrom legacyInvalidRegex [HYPHEN] b p s).
Proof.
  revert b p. induction s as [|c t IH]; intros b p; simpl; [constructor|].
  destruct p as [|d]; [|apply IH].
  destruct (legacyClass c) eqn:E; simpl; constructor; auto.
Qed.

Lemma hyphenRun_cons c t n :
  hyphenRun (c :: t) = S n -> c = HYPHEN /\ hyphenRun t = n.
Proof.
  simpl. destruct (c =? HYPHEN) eqn:E; [|discriminate].
  apply N.eqb_eq in E. intros [= <-]. auto.
Qed.

Lemma hyphenRun_le s : (hyphenRun s <= List.length s)%nat.
Proof.
  induction s as [|c t IH]; simpl; [lia|].
  destruct (c =? HYPHEN); simpl; lia.
Qed.

Lemma hyphenRun_take s : forallb isHU (take (hyphenRun s) s) = true.
Proof.
  induction s as [|c t IH]; [reflexivity|].
  simpl. destruct (c =? HYPHEN) eqn:E; [|reflexivity].
  simpl. unfold isHU at 1. rewrite E. exact IH.
Qed.

Lemma replaceFrom_Dropped re rep :
  dropsOnly re rep ->
  forall s b p, forallb isHU (take p s) = true -> Dropped s (replaceFrom re rep b p s).
Proof.
  intros Hre s. induction s as [|c t IH]; intros b p Hp; simpl; [constructor|].
  destruct p as [|d].
  - destruct (re b (c :: t)) as [k|] eqn:E.
    + destruct (Hre _ _ _ _ E) as [[[-> Hc] | ->] Hk]; simpl.
      * apply Dropped_drop; auto.
      * apply Dropped_keep; auto.
    + apply Dropped_keep. apply IH. reflexivity.
  - simpl in Hp. apply andb_true_iff in Hp as [Hc Hd].
    apply Dropped_drop; auto.
Qed.

Lemma hyphensRegex_dropsOnly : dropsOnly hyphensRegex [HYPHEN].
Proof.
  intros b c t k. unfold hyphensRegex.
  destruct (hyphenRun (c :: t)) as [|[|n]] eqn:E; try discriminate.
  intros [= <-]. apply hyphenRun_cons in E as [-> E].
  split; [right; reflexivity|]. rewrite <- E. apply hyphenRun_take.
Qed.

Lemma endsRegex_dropsOnly : dropsOnly endsRegex [].
Proof.
  intros b c t k. unfold endsRegex.
  destruct (hyphenRun (c :: t)) as [|n] eqn:E.
  - destruct (c =? UNDERSCORE) eqn:Ec; [|discriminate].
    assert (isHU c = true) by (unfold isHU; rewrite Ec; apply orb_true_r).
    destruct b; [intros [= <-]; auto|].
    destruct t; [intros [= <-]; auto | discriminate].
  - apply hyphenRun_cons in E as [-> E].
    assert (forallb isHU (take n t) = true) by (rewrite <- E; apply hyphenRun_take).
    destruct b; [intros [= <-]; auto|].
    destruct (Nat.eqb _ _); [intros [= <-]; auto | discriminate].
Qed.

(** ** Code points *)

Lemma codePoints_cons_not_high c s :
  isHighSurrogate c = false -> codePoints (c :: s) = c :: codePoints s.
Proof. intros Hc. simpl. destruct s; [reflexivity|]. rewrite Hc. reflexivity. Qed.

Lemma not_surrogate_not_high c : isSurrogate c = false -> isHighSurrogate c = false.
Proof.
  unfold isSurrogate, isHighSurrogate. rewrite !inRange_false. lia.
Qed.

Lemma Paired_codePoints P s : Paired P s -> forallb P (codePoints s) = true.
Proof.
  induction 1 as [|c s Hc HP _ IH|hi lo s Hh Hl HP _ IH].
  - reflexivity.
  - rewrite codePoints_cons_not_high by (apply not_surrogate_not_high; exact Hc).
    simpl. rewrite HP. exact IH.
  - simpl. rewrite Hh, Hl. simpl. rewrite HP. exact IH.
Qed.

Lemma isHU_not_surrogate c : isHU c = true -> isSurrogate c = false.
Proof.
  unfold isHU. intros H. classes; subst; reflexivity.
Qed.

Lemma Paired_Dropped P s s' : Paired P s -> Dropped s s' -> Paired P s'.
Proof.
  intros HP. revert s'.
  induction HP as [|c s Hc Hpc _ IH|hi lo s Hh Hl Hpc _ IH]; intros s' HD.
  - inversion HD. constructor.
  - inversion HD; subst; [apply Paired_unit|]; auto.
  - inversion HD as [|? ? s1 HD1|? ? ? Hhu]; subst.
    + inversion HD1 as [|? ? s2 HD2|? ? ? Hhu]; subst.
      * apply Paired_pair; auto.
      * apply isHU_not_surrogate in Hhu. classes; lia.
    + apply isHU_not_surrogate in Hhu. classes; lia.
Qed.

Lemma encodeCodePoint_Paired P cp s :
  isScalarValue cp = true -> P cp = true -> Paired P s ->
  Paired P (encodeCodePoint cp ++ s).
Proof.
  intros Hs HP Hrest. unfold encodeCodePoint.
  destruct (cp <? 0x10000) eqn:E; simpl.
  - apply Paired_unit; auto. classes. apply inRange_false. lia.
  - classes.
    pose proof (N.Div0.div_mod (cp - 0x10000) 0x400) as Hdm.
    pose proof (N.mod_upper_bound (cp - 0x10000) 0x400 ltac:(lia)) as Hm.
    assert ((cp - 0x10000) / 0x400 < 0x400) as Hq
      by (apply N.Div0.div_lt_upper_bound; lia).
    set (q := (cp - 0x10000) / 0x400) in *.
    set (m := (cp - 0x10000) mod 0x400) in *.
    assert (combineSurrogates (0xD800 + q) (0xDC00 + m) = cp) as Hc
      by (unfold combineSurrogates; lia).
    apply Paired_pair; auto.
    + unfold isHighSurrogate. apply inRange_spec. lia.
    + unfold isLowSurrogate. apply inRange_spec. lia.
    + rewrite Hc. exact HP.
Qed.

(** ** The normaliser, step by step *)

Section CleanFacts.
Context {U : Unicode} {L : UnicodeLaws U}.

Lemma html5Class_scalar cp : html5Class cp = true -> isScalarValue cp = true.
Proof.
  unfold html5Class. rewrite !orb_true_iff.
  intros [[[[H|H]|H]|H]|H].
  - classes. apply andb_true_iff. split.
    + apply N.ltb_lt. lia.
    + apply negb_true_iff, inRange_false. lia.
  - apply isLetter_scalar, H.
  - apply isMark_scalar, H.
  - classes. subst. reflexivity.
  - classes. subst. reflexivity.
Qed.

Lemma html5Class_hyphen : html5Class HYPHEN = true.
Proof. unfold html5Class. simpl. apply orb_true_r. Qed.

Lemma replaceInvalidHtml5_Paired s : Paired html5Class (replaceInvalidHtml5 s).
Proof.
  unfold replaceInvalidHtml5, fromCodePoints.
  induction (codePoints s) as [|cp l IH]; simpl; [constructor|].
  assert (html5Class (if html5Class cp then cp else HYPHEN) = true) as Hcp
    by (destruct (html5Class cp) eqn:E; [exact E | apply html5Class_hyphen]).
  apply encodeCodePoint_Paired; auto using html5Class_scalar.
Qed.

Lemma stripped_Dropped uncleanedId doctype :
  exists s, Dropped
    (replaceInvalid doctype (replaceAll combiningMarksRegex [] (normalizeNFKD uncleanedId)))
    s /\ Dropped s (stripped uncleanedId doctype).
Proof.
  eexists. split.
  - apply (replaceFrom_Dropped _ _ hyphensRegex_dropsOnly _ true 0%nat). reflexivity.
  - apply (replaceFrom_Dropped _ _ endsRegex_dropsOnly _ true 0%nat). reflexivity.
Qed.

(** In an HTML5 document the string that is lower-cased is well-formed
    and made of allowed code points. *)
Lemma stripped_html5 uncleanedId doctype :
  isHtml5 doctype = true -> Paired html5Class (stripped uncleanedId doctype).
Proof.
  intros Hmode.
  destruct (stripped_Dropped uncleanedId doctype) as (s & H1 & H2).
  eapply Paired_Dropped; [|exact H2].
  eapply Paired_Dropped; [|exact H1].
  unfold replaceInvalid. rewrite Hmode. apply replaceInvalidHtml5_Paired.
Qed.

Lemma cleanedHtmlId_html5 uncleanedId doctype :
  isHtml5 doctype = true ->
  forallb html5Class (codePoints (cleanedHtmlId uncleanedId doctype)) = true.
Proof.
  intros Hmode. unfold cleanedHtmlId.
  apply toLowerCase_html5Class, Paired_codePoints, stripped_html5, Hmode.
Qed.

(** In any other document it is made of [0-9a-zA-Z_-]. *)
Lemma stripped_legacy uncleanedId doctype :
  isHtml5 doctype = false ->
  Forall (fun c => legacyClass c = true) (stripped uncleanedId doctype).
Proof.
  intros Hmode. unfold stripped, collapsed, replaceAll.
  apply replaceFrom_Forall; [constructor|].
  apply replaceFrom_Forall; [repeat constructor|].
  unfold replaceInvalid. rewrite Hmode. apply replaceAll_legacyInvalid.
Qed.

Lemma cleanedHtmlId_legacy uncleanedId doctype :
  isHtml5 doctype = false ->
  Forall (fun c => legacyClass c = true) (cleanedHtmlId uncleanedId doctype).
Proof.
  intros Hmode. unfold cleanedHtmlId.
  pose proof (stripped_legacy uncleanedId doctype Hmode) as Hs.
  rewrite toLowerCase_ascii.
  - apply Forall_map. eapply Forall_impl; [exact Hs|].
    intros c Hc. apply legacyClass_asciiLower, Hc.
  - apply forallb_Forall. eapply Forall_impl; [exact Hs|].
    intros c Hc. apply legacyClass_ascii, Hc.
Qed.

Lemma toLowerCase_nil : toLowerCase [] = [].
Proof. rewrite toLowerCase_ascii; reflexivity. Qed.

End CleanFacts.

Lemma matchesFallbackRegex_legacy fallback :
  matchesFallbackRegex fallback = true ->
  Forall (fun c => legacyClass c = true) fallback.
Proof.
  destruct fallback as [|c t]; [discriminate|]. simpl.
  rewrite andb_true_iff. intros [Hc Ht]. constructor.
  - unfold legacyClass. unfold isAsciiLetter in Hc.
    destruct (isUpper c), (isLower c), (isDigit c); try discriminate; reflexivity.
  - apply forallb_Forall in Ht. eapply Forall_impl; [exact Ht|].
    intros x Hx. rewrite <- fallbackClass_legacyClass. exact Hx.
Qed.

Lemma isSeparator_spec separator :
  isSeparator separator = true <->
  separator = [UNDERSCORE] \/ separator = [HYPHEN] \/ separator = [].
Proof.
  unfold isSeparator. rewrite !orb_true_iff, !bool_decide_eq_true. tauto.
Qed.

Lemma isSeparator_legacy separator :
  isSeparator separator = true ->
  Forall (fun c => legacyClass c = true) separator.
Proof.
  rewrite isSeparator_spec. intros [-> | [-> | ->]]; repeat constructor.
Qed.

(** The Basic Latin host satisfies the laws. *)
Lemma codePoints_ascii s : forallb isAscii s = true -> codePoints s = s.
Proof.
  intros H. apply codePoints_no_high. apply forallb_Forall in H.
  eapply Forall_impl; [exact H|]. intros c Hc.
  unfold isHighSurrogate. apply inRange_false. classes. lia.
Qed.

Lemma legacyClass_scalar c : legacyClass c = true -> isScalarValue c = true.
Proof.
  rewrite legacyClass_spec. intros H. unfold isScalarValue, isSurrogate.
  apply andb_true_iff. split.
  - apply N.ltb_lt. lia.
  - apply negb_true_iff, inRange_false. lia.
Qed.

Lemma combineSurrogates_large hi lo : 0x10000 <= combineSurrogates hi lo.
Proof. unfold combineSurrogates. lia. Qed.

Lemma codePoints_legacy s :
  Forall (fun c => legacyClass c = true) (codePoints s) -> codePoints s = s.
Proof.
  induction s as [|c t IH]; [reflexivity|].
  simpl. destruct t as [|l t']; [reflexivity|].
  destruct (isHighSurrogate c && isLowSurrogate l).
  - intros H. apply Forall_cons_iff in H as [H _].
    apply legacyClass_spec in H.
    pose proof (combineSurrogates_large c l). lia.
  - intros H. apply Forall_cons_iff in H as [_ H]. f_equal. apply IH, H.
Qed.

Lemma html5Class_basicLatin c : html5Class (U:=basicLatin) c = legacyClass c.
Proof.
  unfold html5Class, legacyClass. simpl. unfold isAsciiLetter.
  rewrite orb_false_r.
  destruct (isDigit c), (isUpper c), (isLower c); reflexivity.
Qed.

#[global] Instance basicLatin_laws : UnicodeLaws basicLatin.
Proof.
  split; try reflexivity.
  - intros c Hc. apply legacyClass_scalar. unfold legacyClass.
    change (isAsciiLetter c = true) in Hc.
    unfold isAsciiLetter in Hc.
    destruct (isDigit c), (isUpper c), (isLower c); try discriminate; reflexivity.
  - discriminate.
  - intros s Hs.
    assert (Forall (fun c => legacyClass c = true) (codePoints s)) as Hl.
    { apply forallb_Forall in Hs. eapply Forall_impl; [exact Hs|].
      intros c Hc. rewrite <- html5Class_basicLatin. exact Hc. }
    assert (codePoints s = s) as Hcp by (apply codePoints_legacy, Hl).
    rewrite Hcp in Hl. change (toLowerCase s) with (map asciiLower s).
    rewrite codePoints_no_high.
    + apply forallb_Forall, Forall_map. eapply Forall_impl; [exact Hl|].
      intros c Hc. simpl. rewrite html5Class_basicLatin.
      apply legacyClass_asciiLower, Hc.
    + apply Forall_map. eapply Forall_impl; [exact Hl|].
      intros c Hc. simpl. apply legacyClass_not_high, legacyClass_asciiLower, Hc.
Qed.

(** ** The result of [clean] *)

Lemma clean_unfold {U : Unicode} uncleanedId doctype fallback separator :
  clean uncleanedId doctype fallback separator =
  match cleanedHtmlId uncleanedId doctype with
  | [] => fallback
  | c :: t =>
      if negb (isHtml5 doctype) && negb (isAsciiLetter c)
      then fallback ++ separator ++ c :: t
      else c :: t
  end.
Proof.
  unfold clean. destruct (cleanedHtmlId uncleanedId doctype); reflexivity.
Qed.

(** C3.  When the cleaned string is not empty: in a document that is
    not HTML5, [clean] returns [fallback + separator + cleaned] if the
    first unit of the cleaned string is not an ASCII letter and the
    cleaned string itself otherwise; in an HTML5 document it returns the
    cleaned string whatever its first unit is. *)
Theorem clean_first_character {U : Unicode} uncleanedId doctype fallback separator c t :
  cleanedHtmlId uncleanedId doctype = c :: t ->
  (isHtml5 doctype = false ->
     (isAsciiLetter c = false ->
        clean uncleanedId doctype fallback separator = fallback ++ separator ++ c :: t)
     /\ (isAsciiLetter c = true ->
        clean uncleanedId doctype fallback separator = c :: t))
  /\ (isHtml5 doctype = true ->
        clean uncleanedId doctype fallback separator = c :: t).
Proof.
  intros Hc. rewrite clean_unfold, Hc.
  split; [intros ->; split; intros ->|intros ->]; reflexivity.
Qed.

Lemma clean_first_character_witness :
  cleanedHtmlId (U:=basicLatin) (js "1a") html4Doctype = js "1a"
  /\ clean (U:=basicLatin) (js "1a") html4Doctype (js "f") (js "_") = js "f_1a".
Proof.
  split; [vm_compute; reflexivity|].
  refine (proj1 (proj1 (clean_first_character (U:=basicLatin)
    (js "1a") html4Doctype (js "f") (js "_") 49 (js "a") _) _) _);
    vm_compute; reflexivity.
Defined.

(** C2.  With a valid fallback and a valid separator, whenever the
    cleaned string is not empty every code point of the result of
    [clean] is in the allowed set of the mode: digits, letters, marks,
    underscore and hyphen in an HTML5 document, [0-9a-zA-Z_-] in any
    other.  When the cleaned string is empty the result is the fallback
    as it stands. *)
Theorem clean_allowed {U : Unicode} {L : UnicodeLaws U}
    uncleanedId doctype fallback separator :
  matchesFallbackRegex fallback = true ->
  isSeparator separator = true ->
  (cleanedHtmlId uncleanedId doctype <> [] ->
     forallb (allowedCodePoint doctype)
       (codePoints (clean uncleanedId doctype fallback separator)) = true)
  /\ (cleanedHtmlId uncleanedId doctype = [] ->
     clean uncleanedId doctype fallback separator = fallback).
Proof.
  intros Hf Hsep. rewrite clean_unfold. split.
  - intros Hne. unfold allowedCodePoint. destruct (isHtml5 doctype) eqn:Hmode.
    + pose proof (cleanedHtmlId_html5 uncleanedId doctype Hmode) as H.
      destruct (cleanedHtmlId uncleanedId doctype); [congruence|exact H].
    + pose proof (cleanedHtmlId_legacy uncleanedId doctype Hmode) as H.
      assert (forall s, Forall (fun c => legacyClass c = true) s ->
                forallb legacyClass (codePoints s) = true) as Hcp.
      { intros s Hs. rewrite codePoints_no_high; [apply forallb_Forall, Hs|].
        eapply Forall_impl; [exact Hs|]. apply legacyClass_not_high. }
      destruct (cleanedHtmlId uncleanedId doctype) as [|c t]; [congruence|].
      simpl negb. cbv beta iota. rewrite andb_true_l.
      destruct (negb (isAsciiLetter c)); apply Hcp; [|exact H].
      apply Forall_app. split; [apply matchesFallbackRegex_legacy, Hf|].
      apply Forall_app. split; [apply isSeparator_legacy, Hsep|exact H].
  - intros ->. reflexivity.
Qed.

Lemma clean_allowed_witness :
  forallb (allowedCodePoint (U:=basicLatin) html4Doctype)
    (codePoints (clean (U:=basicLatin) (js "1 A") html4Doctype (js "f") (js "_"))) = true.
Proof.
  refine (proj1 (clean_allowed (U:=basicLatin) (js "1 A") html4Doctype (js "f") (js "_")
                   _ _) _).
  - vm_compute; reflexivity.
  - vm_compute; reflexivity.
  - vm_compute. discriminate.
Defined.

(** ** Collapsing and stripping *)

Lemma replaceFrom_pending re rep b p s :
  replaceFrom re rep b (S p) s = replaceFrom re rep false 0 (drop (S p) s).
Proof.
  revert b p. induction s as [|c t IH]; intros b p; [reflexivity|].
  simpl. destruct p as [|p]; [reflexivity|]. rewrite IH. reflexivity.
Qed.

Lemma startsWithHyphen_run s : startsWithHyphen s = false <-> hyphenRun s = 0%nat.
Proof.
  destruct s as [|c t]; simpl; [tauto|].
  destruct (c =? HYPHEN); split; congruence.
Qed.

Lemma drop_hyphenRun s : startsWithHyphen (drop (hyphenRun s) s) = false.
Proof.
  induction s as [|c t IH]; [reflexivity|].
  simpl. destruct (c =? HYPHEN) eqn:E; simpl; [exact IH|exact E].
Qed.

Lemma collapse_step b c t :
  replaceFrom hyphensRegex [HYPHEN] b 0 (c :: t) =
  if (c =? HYPHEN) && startsWithHyphen t
  then HYPHEN :: replaceFrom hyphensRegex [HYPHEN] false 0 (drop (hyphenRun t) t)
  else c :: replaceFrom hyphensRegex [HYPHEN] false 0 t.
Proof.
  simpl. unfold hyphensRegex. simpl hyphenRun.
  destruct (c =? HYPHEN); [|reflexivity].
  destruct (startsWithHyphen t) eqn:E; simpl.
  - destruct (hyphenRun t) as [|k] eqn:Ek.
    + apply startsWithHyphen_run in Ek. congruence.
    + rewrite replaceFrom_pending. reflexivity.
  - apply startsWithHyphen_run in E. rewrite E. reflexivity.
Qed.

Lemma collapse_noHyphenPair_aux n :
  forall s b, (List.length s <= n)%nat ->
    noHyphenPair (replaceFrom hyphensRegex [HYPHEN] b 0 s) = true
    /\ (startsWithHyphen s = false ->
        startsWithHyphen (replaceFrom hyphensRegex [HYPHEN] b 0 s) = false).
Proof.
  induction n as [|n IH]; intros s b Hlen.
  - destruct s; [split; reflexivity | simpl in Hlen; lia].
  - destruct s as [|c t]; [split; reflexivity|].
    simpl in Hlen. rewrite collapse_step.
    destruct ((c =? HYPHEN) && startsWithHyphen t) eqn:E.
    + apply andb_true_iff in E as [Ec Et].
      destruct (IH (drop (hyphenRun t) t) false) as [IH1 IH2].
      { rewrite length_drop. lia. }
      split.
      * cbn [noHyphenPair].
        rewrite IH1, (IH2 (drop_hyphenRun t)), andb_false_r. reflexivity.
      * simpl. congruence.
    + destruct (IH t false ltac:(lia)) as [IH1 IH2]. split.
      * cbn [noHyphenPair]. rewrite IH1, andb_true_r.
        apply andb_false_iff in E as [E|E]; [rewrite E; reflexivity|].
        rewrite (IH2 E), andb_false_r. reflexivity.
      * simpl. auto.
Qed.

(** After the collapsing step no two hyphens are next to each other. *)
Lemma collapse_noHyphenPair s :
  noHyphenPair (replaceAll hyphensRegex [HYPHEN] s) = true.
Proof. apply (collapse_noHyphenPair_aux (List.length s) s true). lia. Qed.

(** The end-stripping pattern on hyphens and underscores without two
    hyphens in a row: at index 0 it matches one unit, behind index 0
    it matches the last unit only. *)
Lemma endsRegex_HU b c t :
  isHU c = true -> noHyphenPair (c :: t) = true ->
  endsRegex b (c :: t) =
  if b then Some 0%nat else match t with [] => Some 0%nat | _ => None end.
Proof.
  intros Hc Hnp. simpl in Hnp. apply andb_true_iff in Hnp as [Hcp _].
  unfold endsRegex. cbn [hyphenRun].
  destruct (c =? HYPHEN) eqn:Ec.
  - simpl in Hcp. apply negb_true_iff in Hcp.
    apply startsWithHyphen_run in Hcp. rewrite Hcp.
    destruct b; [reflexivity|]. destruct t; reflexivity.
  - unfold isHU in Hc. rewrite Ec in Hc. simpl in Hc. rewrite Hc. reflexivity.
Qed.

Lemma strip_tail_length s :
  forallb isHU s = true -> noHyphenPair s = true ->
  List.length (replaceFrom endsRegex [] false 0 s) = Nat.pred (List.length s).
Proof.
  induction s as [|c t IH]; [reflexivity|].
  intros Hhu Hnp. cbn [replaceFrom].
  simpl in Hhu. apply andb_true_iff in Hhu as [Hc Ht].
  rewrite (endsRegex_HU false c t Hc Hnp).
  simpl in Hnp. apply andb_true_iff in Hnp as [_ Hnp].
  specialize (IH Ht Hnp).
  destruct t as [|d t']; [reflexivity|].
  cbn [List.length] in IH |- *. rewrite IH. reflexivity.
Qed.

Lemma strip_length s :
  forallb isHU s = true -> noHyphenPair s = true ->
  List.length (replaceAll endsRegex [] s) = (List.length s - 2)%nat.
Proof.
  destruct s as [|c t]; [reflexivity|].
  intros Hhu Hnp. unfold replaceAll. cbn [replaceFrom].
  simpl in Hhu. apply andb_true_iff in Hhu as [Hc Ht].
  rewrite (endsRegex_HU true c t Hc Hnp).
  simpl in Hnp. apply andb_true_iff in Hnp as [_ Hnp].
  cbn [app]. rewrite (strip_tail_length t Ht Hnp). simpl. lia.
Qed.

(** C6, as amended.  When the candidate normalises, up to the
    collapsing of hyphens, to a string of hyphens and underscores only,
    the end-stripping step removes one unit on each side: its result is
    empty exactly when that string has at most two units, and [clean]
    then returns the fallback as it stands. *)
Theorem clean_hyphens_underscores {U : Unicode} {L : UnicodeLaws U}
    uncleanedId doctype fallback separator :
  forallb isHU (collapsed uncleanedId doctype) = true ->
  (stripped uncleanedId doctype = [] <->
     (List.length (collapsed uncleanedId doctype) <= 2)%nat)
  /\ (stripped uncleanedId doctype = [] ->
     clean uncleanedId doctype fallback separator = fallback).
Proof.
  intros Hhu.
  assert (List.length (stripped uncleanedId doctype)
          = (List.length (collapsed uncleanedId doctype) - 2)%nat) as Hlen
    by (apply strip_length; [exact Hhu | apply collapse_noHyphenPair]).
  split.
  - split.
    + intros E. rewrite E in Hlen. simpl in Hlen. lia.
    + intros Hle. destruct (stripped uncleanedId doctype); [reflexivity|].
      simpl in Hlen. lia.
  - intros E. rewrite clean_unfold. unfold cleanedHtmlId.
    rewrite E, toLowerCase_nil. reflexivity.
Qed.

Lemma clean_hyphens_underscores_witness :
  stripped (U:=basicLatin) (js "_-") html5Doctype = []
  /\ clean (U:=basicLatin) (js "_-") html5Doctype (js "f") (js "_") = js "f".
Proof.
  pose proof (clean_hyphens_underscores (U:=basicLatin)
                (js "_-") html5Doctype (js "f") (js "_") eq_refl) as [H1 H2].
  assert (stripped (U:=basicLatin) (js "_-") html5Doctype = []) as E
    by (apply H1; vm_compute; lia).
  exact (conj E (H2 E)).
Defined.

(** C6 as stated fails: three underscores are hyphens and underscores
    only, the end-stripping step leaves the middle one, and [clean]
    returns it instead of the fallback. *)
Lemma clean_underscores_counterexample :
  ~ (forallb isHU (collapsed (U:=basicLatin) (js "___") html5Doctype) = true ->
     stripped (U:=basicLatin) (js "___") html5Doctype = []
     /\ clean (U:=basicLatin) (js "___") html5Doctype (js "f") (js "_") = js "f").
Proof.
  intros H. destruct (H eq_refl) as [H1 _]. vm_compute in H1. discriminate.
Qed.

(** ** The identifiers the loop tries *)

Lemma digitUnits_inj d d' : digitUnits d = digitUnits d' -> d = d'.
Proof.
  revert d'. induction d; intros [] E; simpl in E;
    try discriminate; try reflexivity;
    injection E as E; f_equal; auto.
Qed.

Lemma numberToString_inj n n' : numberToString n = numberToString n' -> n = n'.
Proof.
  intros E. apply DecimalN.Unsigned.to_uint_inj, digitUnits_inj, E.
Qed.

Lemma numberToString_not_empty n : numberToString n <> [].
Proof.
  unfold numberToString. destruct n as [|p]; [discriminate|].
  simpl. pose proof (DecimalPos.Unsigned.to_uint_nonnil p) as H.
  destruct (Pos.to_uint p); [congruence | discriminate..].
Qed.

(** The identifiers tried are pairwise distinct. *)
Lemma attempt_inj cleanedBaseId separator i j :
  attempt cleanedBaseId separator i = attempt cleanedBaseId separator j -> i = j.
Proof.
  assert (forall k, cleanedBaseId
            <> cleanedBaseId ++ separator ++ numberToString (N.of_nat (S k))) as Hne.
  { intros k E. rewrite <- (app_nil_r cleanedBaseId) in E at 1.
    apply app_inv_head in E. symmetry in E.
    apply app_eq_nil in E as [_ E]. exact (numberToString_not_empty _ E). }
  destruct i as [|i], j as [|j]; simpl; intros E.
  - reflexivity.
  - destruct (Hne _ E).
  - symmetry in E. destruct (Hne _ E).
  - do 2 apply app_inv_head in E. apply numberToString_inj in E. lia.
Qed.

Section LoopFacts.
Variable getElementById : JSString -> option Element.
Variable node : Node.
Variables cleanedBaseId separator : JSString.

Local Abbreviation exitsAt := (exitsAt getElementById node cleanedBaseId separator).
Local Abbreviation loopAt := (loopAt getElementById node cleanedBaseId separator).

Lemma loopAt_unfold fuel k :
  loopAt (S fuel) k =
  if exitsAt k then Normal (attempt cleanedBaseId separator k)
  else loopAt fuel (S k).
Proof.
  unfold loopAt, exitsAt. cbn [attemptLoop].
  destruct (getElementById (attempt cleanedBaseId separator k)) as [e|];
    [|reflexivity].
  destruct (sameNode e node); [reflexivity|].
  replace (N.of_nat (S k) + 1) with (N.of_nat (S (S k))) by lia.
  reflexivity.
Qed.

(** The loop returns the first identifier that passes the test, having
    asked the document once for each identifier before it and once for
    the one it returns. *)
Lemma loopAt_first n : forall k fuel,
  (forall j, (k <= j < k + n)%nat -> exitsAt j = false) ->
  exitsAt (k + n) = true ->
  (n < fuel)%nat ->
  loopAt fuel k = Normal (attempt cleanedBaseId separator (k + n)).
Proof.
  induction n as [|n IH]; intros k fuel Hbefore Hexit Hfuel;
    (destruct fuel as [|fuel]; [lia|]); rewrite loopAt_unfold.
  - rewrite Nat.add_0_r in Hexit. rewrite Hexit, Nat.add_0_r. reflexivity.
  - rewrite (Hbefore k) by lia.
    replace (k + S n)%nat with (S k + n)%nat in * by lia.
    apply IH; [intros j Hj; apply Hbefore; lia | exact Hexit | lia].
Qed.

(** With too little fuel the loop is still running. *)
Lemma loopAt_running n : forall k fuel,
  (forall j, (k <= j < k + n)%nat -> exitsAt j = false) ->
  (fuel <= n)%nat ->
  loopAt fuel k = OutOfFuel.
Proof.
  induction n as [|n IH]; intros k fuel Hbefore Hfuel;
    (destruct fuel as [|fuel]; [reflexivity|]); [lia|].
  rewrite loopAt_unfold, (Hbefore k) by lia.
  apply IH; [intros j Hj; apply Hbefore; lia | lia].
Qed.

Lemma first_exit m :
  exitsAt m = true ->
  exists n, (n <= m)%nat /\ exitsAt n = true /\ forall j, (j < n)%nat -> exitsAt j = false.
Proof.
  induction m as [m IH] using lt_wf_ind. intros Hm.
  destruct (find exitsAt (seq 0 m)) as [n|] eqn:E.
  - apply find_some in E as [Hin Hn]. apply in_seq in Hin.
    destruct (IH n ltac:(lia) Hn) as (n' & Hle & Hn' & Hlt).
    exists n'. split; [lia|]. auto.
  - exists m. split; [lia|]. split; [exact Hm|].
    intros j Hj. apply (find_none _ _ E). apply in_seq. lia.
Qed.

(** When the document gives an element to finitely many identifiers,
    one of the first identifiers tried has none. *)
Lemma free_attempt (ids : list JSString) :
  (forall id, getElementById id <> None -> id ∈ ids) ->
  exists k, (k <= List.length ids)%nat
    /\ getElementById (attempt cleanedBaseId separator k) = None.
Proof.
  intros Hfin.
  set (free := fun k =>
    match getElementById (attempt cleanedBaseId separator k) with
    | None => true | Some _ => false end).
  destruct (find free (seq 0 (S (List.length ids)))) as [k|] eqn:E.
  - apply find_some in E as [Hin Hk]. apply in_seq in Hin.
    exists k. split; [lia|]. unfold free in Hk.
    destruct (getElementById _); [discriminate|reflexivity].
  - exfalso.
    assert (attempt cleanedBaseId separator <$> seq 0 (S (List.length ids))
            ⊆+ ids) as Hsub.
    { apply NoDup_submseteq.
      - apply NoDup_fmap_2; [|apply NoDup_seq].
        intros i j. apply attempt_inj.
      - intros id Hid. apply list_elem_of_fmap in Hid as (k & -> & Hk).
        apply Hfin. apply list_elem_of_In in Hk.
        pose proof (find_none _ _ E k Hk) as Hfree. unfold free in Hfree.
        destruct (getElementById _); [discriminate|discriminate]. }
    apply submseteq_length in Hsub.
    rewrite length_fmap, length_seq in Hsub. lia.
Qed.

End LoopFacts.

(** ** The resolver *)

(** C10.  When the lookup is a fixed function that answers with an
    element for finitely many identifiers only, the identifiers tried
    are pairwise distinct and the loop ends: it returns one of the first
    [length ids + 1] identifiers, as soon as the fuel allows that many
    lookups. *)
Theorem attemptLoop_terminates
    (getElementById : JSString -> option Element) (node : Node)
    (cleanedBaseId separator : JSString) (ids : list JSString) :
  (forall id, getElementById id <> None -> id ∈ ids) ->
  (forall i j, attempt cleanedBaseId separator i = attempt cleanedBaseId separator j
               -> i = j)
  /\ exists k, (k <= List.length ids)%nat
     /\ forall fuel, (k < fuel)%nat ->
        attemptLoop fuel getElementById node cleanedBaseId separator 1 cleanedBaseId
        = Normal (attempt cleanedBaseId separator k).
Proof.
  intros Hfin. split; [apply attempt_inj|].
  destruct (free_attempt getElementById cleanedBaseId separator ids Hfin)
    as (m & Hm & Hfree).
  destruct (first_exit getElementById node cleanedBaseId separator m)
    as (k & Hk & Hexit & Hbefore).
  { unfold exitsAt. rewrite Hfree. reflexivity. }
  exists k. split; [lia|]. intros fuel Hfuel.
  apply (loopAt_first getElementById node cleanedBaseId separator k 0%nat fuel);
    [intros j Hj; apply Hbefore; lia | exact Hexit | exact Hfuel].
Qed.

Lemma attemptLoop_terminates_witness :
  exists k, (k <= 2)%nat /\ forall fuel, (k < fuel)%nat ->
    attemptLoop fuel
      (fun id => if bool_decide (id = js "f") then Some (inputElement 1)
                 else if bool_decide (id = js "f_1") then Some (inputElement 2)
                 else None)
      (DocumentNode 0%nat) (js "f") (js "_") 1 (js "f")
    = Normal (attempt (js "f") (js "_") k).
Proof.
  refine (proj2 (attemptLoop_terminates _ (DocumentNode 0%nat) (js "f") (js "_")
                   [js "f"; js "f_1"] _)).
  intros id. repeat case_bool_decide; subst; try congruence; intros _.
  - apply list_elem_of_here.
  - apply list_elem_of_further, list_elem_of_here.
Defined.

Lemma generateUnique_terminates {U : Unicode} h baseId node fallback separator :
  let doc := h (ownerDocumentOf node) in
  let base := clean baseId (doctype doc) fallback separator in
  exists k, (k <= size (elementsById doc))%nat
    /\ exitsAt (getElementById doc) node base separator k = true
    /\ (forall j, (j < k)%nat ->
          exitsAt (getElementById doc) node base separator j = false)
    /\ forall fuel, (k < fuel)%nat ->
         generateUniqueFromBaseId fuel h baseId node fallback separator
         = Normal (attempt base separator k).
Proof.
  intros doc base.
  destruct (free_attempt (getElementById doc) base separator
              (elements (dom (elementsById doc)))) as (m & Hm & Hfree).
  { intros id Hid. apply elem_of_elements, elem_of_dom.
    unfold getElementById in Hid. destruct (elementsById doc !! id); [eauto|congruence]. }
  destruct (first_exit (getElementById doc) node base separator m)
    as (k & Hk & Hexit & Hbefore).
  { unfold exitsAt. rewrite Hfree. reflexivity. }
  exists k. split; [|split; [exact Hexit|split; [exact Hbefore|]]].
  - change (List.length (elements (dom (elementsById doc))))
      with (size (dom (elementsById doc))) in Hm.
    rewrite size_dom in Hm. lia.
  - intros fuel Hfuel.
    apply (loopAt_first (getElementById doc) node base separator k 0%nat fuel);
      [intros j Hj; apply Hbefore; lia | exact Hexit | exact Hfuel].
Qed.

(** C5.  When the owner is a document, the loop leaves only at an
    identifier for which the lookup finds no element: the call returns
    (after at most one lookup more than there are identifiers in the
    document), and what it returns, with any fuel, is an identifier that
    no element of the document holds. *)
Theorem generateUnique_for_document {U : Unicode} h d baseId fallback separator :
  (exists id,
     (forall fuel, (size (elementsById (h d)) < fuel)%nat ->
        generateUniqueFromBaseId fuel h baseId (DocumentNode d) fallback separator
        = Normal id)
     /\ getElementById (h d) id = None)
  /\ (forall fuel id,
        generateUniqueFromBaseId fuel h baseId (DocumentNode d) fallback separator
        = Normal id ->
        getElementById (h d) id = None).
Proof.
  assert (forall fuel n a id,
            attemptLoop fuel (getElementById (h d)) (DocumentNode d)
              (clean baseId (doctype (h d)) fallback separator) separator n a
            = Normal id -> getElementById (h d) id = None) as Hloop.
  { induction fuel as [|fuel IH]; intros n a id; [discriminate|].
    cbn [attemptLoop]. destruct (getElementById (h d) a) eqn:E.
    - cbn [sameNode]. apply IH.
    - intros [= <-]. exact E. }
  split; [|intros fuel id; apply Hloop].
  destruct (generateUnique_terminates h baseId (DocumentNode d) fallback separator)
    as (k & Hk & Hexit & _ & Hrun).
  cbn [ownerDocumentOf] in *.
  eexists. split.
  - intros fuel Hfuel. apply Hrun. lia.
  - eapply (Hloop (S k) 1). exact (Hrun (S k) ltac:(lia)).
Qed.

Lemma assignId_doctype h d id e : doctype (assignId h d id e d) = doctype (h d).
Proof. unfold assignId. rewrite Nat.eqb_refl. reflexivity. Qed.

Lemma assignId_lookup h d id e id' :
  getElementById (assignId h d id e d) id'
  = if bool_decide (id = id') then Some e else getElementById (h d) id'.
Proof.
  unfold assignId, getElementById. rewrite Nat.eqb_refl. cbn [elementsById].
  rewrite lookup_insert. destruct (decide (id = id')) as [E|E].
  - rewrite (bool_decide_eq_true_2 _ E). reflexivity.
  - rewrite (bool_decide_eq_false_2 _ E). reflexivity.
Qed.

(** C4.  An element that holds the cleaned base as its identifier gets
    that identifier back: the first lookup ends the loop, so one unit of
    fuel is enough and no suffix is appended, and this stays so however
    many times the element derives its identifier again and takes the
    result. *)
Theorem generateUnique_own_identifier {U : Unicode} h e baseId fallback separator :
  getElementById (h (ownerDocument e))
    (clean baseId (doctype (h (ownerDocument e))) fallback separator) = Some e ->
  (forall fuel,
     generateUniqueFromBaseId (S fuel) h baseId (ElementNode e) fallback separator
     = Normal (clean baseId (doctype (h (ownerDocument e))) fallback separator))
  /\ (forall fuel times,
     rederive (S fuel) times h baseId e fallback separator
     = Normal (replicate times
                 (clean baseId (doctype (h (ownerDocument e))) fallback separator))).
Proof.
  assert (forall h fuel,
    getElementById (h (ownerDocument e))
      (clean baseId (doctype (h (ownerDocument e))) fallback separator) = Some e ->
    generateUniqueFromBaseId (S fuel) h baseId (ElementNode e) fallback separator
    = Normal (clean baseId (doctype (h (ownerDocument e))) fallback separator))
    as Hone.
  { intros h' fuel Hown. unfold generateUniqueFromBaseId.
    cbn [attemptLoop ownerDocumentOf]. rewrite Hown. cbn [sameNode].
    rewrite bool_decide_eq_true_2 by reflexivity. reflexivity. }
  intros Hown. split; [intros fuel; apply Hone, Hown|].
  intros fuel times. revert h Hown.
  induction times as [|times IH]; intros h Hown; [reflexivity|].
  cbn [rederive]. rewrite (Hone h fuel Hown). cbn [mbind Completion_bind].
  set (base := clean baseId (doctype (h (ownerDocument e))) fallback separator) in *.
  rewrite IH.
  - rewrite assignId_doctype. reflexivity.
  - rewrite assignId_doctype, assignId_lookup.
    rewrite bool_decide_eq_true_2 by reflexivity. reflexivity.
Qed.

Lemma generateUnique_own_identifier_witness :
  rederive (U:=basicLatin) 1 3
    (assignId emptyHeap 0%nat (js "name") (inputElement 1))
    (js "name") (inputElement 1) (js "f") (js "_")
  = Normal [js "name"; js "name"; js "name"].
Proof.
  refine (proj2 (generateUnique_own_identifier (U:=basicLatin)
    (assignId emptyHeap 0%nat (js "name") (inputElement 1))
    (inputElement 1) (js "name") (js "f") (js "_") _) 0%nat 3%nat).
  vm_compute. reflexivity.
Defined.

(** The requests of a caller, from a document in which the first [i]
    identifiers are held by elements that ask no more. *)
Lemma requestAll_from {U : Unicode} d baseId fallback separator base :
  forall requests h i (prev : list Element),
  clean baseId (doctype (h d)) fallback separator = base ->
  (forall j, (j < i)%nat ->
     exists e, getElementById (h d) (attempt base separator j) = Some e /\ e ∈ prev) ->
  (forall j, (i <= j)%nat -> getElementById (h d) (attempt base separator j) = None) ->
  Forall (requestFor d) requests ->
  NoDup (map snd requests) ->
  (forall e, e ∈ prev -> e ∉ map snd requests) ->
  forall fuel, (i + List.length requests < fuel)%nat ->
  exists h',
    requestAll fuel h d baseId fallback separator requests
    = Normal (map (attempt base separator) (seq i (List.length requests)), h').
Proof.
  induction requests as [|[node holder] rest IH];
    intros h i prev Hbase Hheld Hfree Hfor Hnodup Hprev fuel Hfuel.
  - eexists. reflexivity.
  - apply Forall_cons_iff in Hfor as [Hreq Hfor].
    cbn [map snd] in Hnodup, Hprev. apply NoDup_cons in Hnodup as [Hfresh Hnodup].
    assert (ownerDocumentOf node = d) as Hd
      by (destruct Hreq as [Hn|[Hn Ho]]; cbn [fst snd] in *; subst node;
          [reflexivity|exact Ho]).
    assert (generateUniqueFromBaseId fuel h baseId node fallback separator
            = Normal (attempt base separator i)) as Hgen.
    { unfold generateUniqueFromBaseId. rewrite Hd, Hbase.
      apply (loopAt_first (getElementById (h d)) node base separator i 0%nat fuel).
      - intros j Hj. unfold exitsAt.
        destruct (Hheld j ltac:(lia)) as (e & -> & He).
        destruct Hreq as [Hn|[Hn _]]; cbn [fst snd] in Hn; subst node;
          [reflexivity|].
        cbn [sameNode]. apply bool_decide_eq_false_2. intros ->.
        apply (Hprev holder He). apply list_elem_of_here.
      - unfold exitsAt. cbn [Nat.add]. rewrite (Hfree i) by lia. reflexivity.
      - cbn [List.length] in Hfuel. lia. }
    cbn [requestAll]. rewrite Hgen. cbn [mbind Completion_bind].
    destruct (IH (assignId h d (attempt base separator i) holder) (S i)
                (holder :: prev)) with (fuel := fuel) as (h' & Hrest).
    + rewrite assignId_doctype. exact Hbase.
    + intros j Hj. rewrite assignId_lookup. case_bool_decide as E.
      * exists holder. split; [reflexivity|apply list_elem_of_here].
      * destruct (Hheld j) as (e & He & Hin).
        { destruct (decide (j = i)) as [->|]; [congruence|lia]. }
        exists e. split; [exact He|apply list_elem_of_further, Hin].
    + intros j Hj. rewrite assignId_lookup. case_bool_decide as E.
      * apply attempt_inj in E. lia.
      * apply Hfree. lia.
    + exact Hfor.
    + exact Hnodup.
    + intros e He Hin. apply elem_of_cons in He as [->|He].
      * exact (Hfresh Hin).
      * apply (Hprev e He). apply list_elem_of_further, Hin.
    + cbn [List.length] in Hfuel. lia.
    + rewrite Hrest. eexists. reflexivity.
Qed.

(** C1, as amended.  In a document where no element holds an identifier
    derived from the base, entities that ask one after the other, each
    taking its identifier before the next asks, receive the base, then
    the base with the suffixes 1, 2, 3, ... in that order.  In any
    document the identifiers are tried in increasing order of their
    number, from the base itself, and the call returns the first that
    no element holds or that the asking element holds itself, whether
    or not its number was handed out before. *)
Theorem requests_in_sequence {U : Unicode} :
  (forall h d baseId fallback separator requests,
     (forall k, getElementById (h d)
        (attempt (clean baseId (doctype (h d)) fallback separator) separator k)
        = None) ->
     Forall (requestFor d) requests ->
     NoDup (map snd requests) ->
     forall fuel, (List.length requests < fuel)%nat ->
     exists h',
       requestAll fuel h d baseId fallback separator requests
       = Normal (map (attempt (clean baseId (doctype (h d)) fallback separator)
                        separator)
                   (seq 0 (List.length requests)), h'))
  /\ (forall h node baseId fallback separator,
     let doc := h (ownerDocumentOf node) in
     let base := clean baseId (doctype doc) fallback separator in
     exists k,
       exitsAt (getElementById doc) node base separator k = true
       /\ (forall j, (j < k)%nat ->
             exitsAt (getElementById doc) node base separator j = false)
       /\ forall fuel, (k < fuel)%nat ->
            generateUniqueFromBaseId fuel h baseId node fallback separator
            = Normal (attempt base separator k)).
Proof.
  split.
  - intros h d baseId fallback separator requests Hfree Hfor Hnodup fuel Hfuel.
    apply (requestAll_from d baseId fallback separator _ requests h 0%nat []);
      auto; try (intros; lia).
    intros e He. inversion He.
  - intros h node baseId fallback separator doc base.
    destruct (generateUnique_terminates h baseId node fallback separator)
      as (k & _ & Hexit & Hbefore & Hrun).
    exists k. auto.
Qed.

Lemma requests_in_sequence_witness :
  exists h',
    requestAll (U:=basicLatin) 4 emptyHeap 0%nat (js "name") (js "f") (js "_")
      [(ElementNode (inputElement 1), inputElement 1);
       (DocumentNode 0%nat, inputElement 2);
       (ElementNode (inputElement 3), inputElement 3)]
    = Normal ([js "name"; js "name_1"; js "name_2"], h').
Proof.
  refine (proj1 (requests_in_sequence (U:=basicLatin))
            emptyHeap 0%nat (js "name") (js "f") (js "_")
            [(ElementNode (inputElement 1), inputElement 1);
             (DocumentNode 0%nat, inputElement 2);
             (ElementNode (inputElement 3), inputElement 3)] _ _ _ 4%nat _).
  - intros k. reflexivity.
  - repeat constructor; right; split; reflexivity.
  - apply (bool_decide_unpack _). vm_compute. exact I.
  - simpl. lia.
Defined.

(** C1 as stated fails in its last clause.  Three elements take
    [name], [name_1] and [name_2]; the second is removed, which frees
    [name_1]; the next element that asks is given [name_1] again. *)
Lemma freed_number_reused :
  match requestAll (U:=basicLatin) 4 emptyHeap 0%nat (js "name") (js "f") (js "_")
          [(ElementNode (inputElement 1), inputElement 1);
           (ElementNode (inputElement 2), inputElement 2);
           (ElementNode (inputElement 3), inputElement 3)]
  with
  | Normal (ids, h) =>
      ids = [js "name"; js "name_1"; js "name_2"]
      /\ generateUniqueFromBaseId (U:=basicLatin) 4
           (releaseId h 0%nat (js "name_1"))
           (js "name") (ElementNode (inputElement 4)) (js "f") (js "_")
         = Normal (js "name_1")
  | _ => False
  end.
Proof. vm_compute. split; reflexivity. Qed.

(** ** The instance *)

Lemma sameIdentifiers_eq h1 h2 d : sameIdentifiers h1 h2 d -> h1 d = h2 d.
Proof.
  intros [Hdt Hids].
  destruct (h1 d) as [dt1 m1], (h2 d) as [dt2 m2]. cbn in *.
  f_equal; [exact Hdt|]. apply map_eq, Hids.
Qed.

(** The first call of [toString] on an instance returns, once the fuel
    allows one lookup more than the document has identifiers. *)
Lemma toString_returns {U : Unicode} h this :
  InputId._string this = None ->
  exists s, forall fuel,
    (size (elementsById (h (consultedDocument this))) < fuel)%nat ->
    InputId.toString fuel h this = Normal (s, InputId.memoize this s).
Proof.
  intros Hfresh. unfold InputId.toString, consultedDocument. rewrite Hfresh.
  destruct (InputId._forceUniqueness this).
  - fold (nodeOf this).
    destruct (generateUnique_terminates h
                (join (InputId.toArray this) (InputId._separator this))
                (nodeOf this) (InputId._fallback this) (InputId._separator this))
      as (k & Hk & _ & _ & Hrun).
    eexists. intros fuel Hfuel. rewrite Hrun by lia. reflexivity.
  - eexists. intros fuel _. reflexivity.
Qed.

Lemma toString_heap {U : Unicode} h1 h2 fuel this :
  h1 (consultedDocument this) = h2 (consultedDocument this) ->
  InputId.toString fuel h1 this = InputId.toString fuel h2 this.
Proof.
  unfold InputId.toString, generateUniqueFromBaseId, consultedDocument.
  fold (nodeOf this).
  destruct (InputId._forceUniqueness this); intros ->; reflexivity.
Qed.

(** C7.  The pipeline (the assembly of the parts, [clean] and, when
    uniqueness is asked for, the resolver) run on the same instance
    fields against two states of the heap in which the document it reads
    has the same doctype and the same identifier assignments returns,
    with enough fuel, the same string; with any fuel the two runs have
    the same outcome. *)
Theorem toString_idempotent {U : Unicode} h1 h2 this :
  InputId._string this = None ->
  sameIdentifiers h1 h2 (consultedDocument this) ->
  (exists s, forall fuel,
     (size (elementsById (h1 (consultedDocument this))) < fuel)%nat ->
     InputId.toString fuel h1 this = Normal (s, InputId.memoize this s)
     /\ InputId.toString fuel h2 this = Normal (s, InputId.memoize this s))
  /\ (forall fuel, InputId.toString fuel h1 this = InputId.toString fuel h2 this).
Proof.
  intros Hfresh Hsame.
  pose proof (sameIdentifiers_eq h1 h2 _ Hsame) as Heq.
  split; [|intros fuel; apply toString_heap, Heq].
  destruct (toString_returns h1 this Hfresh) as (s & Hs).
  exists s. intros fuel Hfuel. split; [apply Hs, Hfuel|].
  rewrite <- (toString_heap h1 h2 fuel this Heq). apply Hs, Hfuel.
Qed.

Lemma toString_idempotent_witness :
  InputId.toString (U:=basicLatin) 2
    (assignId emptyHeap 0%nat (js "f") (inputElement 1)) anonymousInstance
  = InputId.toString (U:=basicLatin) 2
    (assignId (assignId emptyHeap 0%nat (js "f") (inputElement 2))
       0%nat (js "f") (inputElement 1)) anonymousInstance.
Proof.
  refine (proj2 (toString_idempotent (U:=basicLatin)
                   (assignId emptyHeap 0%nat (js "f") (inputElement 1))
                   (assignId (assignId emptyHeap 0%nat (js "f") (inputElement 2))
                      0%nat (js "f") (inputElement 1)) anonymousInstance _ _) 2%nat).
  - reflexivity.
  - split; reflexivity.
Defined.

Lemma constructor_fresh {U : Unicode} fuel globalDocument options this :
  InputId.constructor fuel globalDocument options = Normal this ->
  InputId._string this = None /\ InputId.frozen this = false.
Proof.
  unfold InputId.constructor. intros H.
  repeat match type of H with
    | (mbind _ ?c) = _ => destruct c; cbn [mbind Completion_bind] in H;
                          try discriminate
    end.
  injection H as <-. split; reflexivity.
Qed.

(** C9.  Once the first [toString] (or [valueOf], which is the same
    call) of an instance has returned [s], the instance holds [s] and is
    frozen: every later [toString] or [valueOf] returns [s] and the
    instance as it is, whatever the heap has become and with no fuel at
    all, that is without a single lookup; and a write to one of its
    properties is refused. *)
Theorem toString_memoized {U : Unicode} this fuel h s this' :
  InputId._string this = None ->
  InputId.toString fuel h this = Normal (s, this') ->
  (forall fuel' h', InputId.toString fuel' h' this' = Normal (s, this'))
  /\ (forall fuel' h', InputId.valueOf fuel' h' this' = Normal (s, this'))
  /\ InputId._string this' = Some s
  /\ InputId.frozen this' = true
  /\ (forall update, InputId.write this' update = Throw ReadOnlyProperty).
Proof.
  intros Hfresh Hcall.
  unfold InputId.toString in Hcall. rewrite Hfresh in Hcall.
  match type of Hcall with
  | (mbind _ ?c) = _ => destruct c as [s0| |]; cbn [mbind Completion_bind] in Hcall;
                        try discriminate
  end.
  injection Hcall as <- <-.
  assert (forall fuel' h',
            InputId.toString fuel' h' (InputId.memoize this s0)
            = Normal (s0, InputId.memoize this s0)) as Hagain
    by (intros; reflexivity).
  repeat split; try reflexivity; intros; apply Hagain.
Qed.

Lemma toString_memoized_witness :
  InputId.toString (U:=basicLatin) 0
    (assignId emptyHeap 0%nat (js "f") (inputElement 1))
    (InputId.memoize anonymousInstance (js "f"))
  = Normal (js "f", InputId.memoize anonymousInstance (js "f")).
Proof.
  refine (proj1 (toString_memoized (U:=basicLatin) anonymousInstance 1 emptyHeap
                   (js "f") (InputId.memoize anonymousInstance (js "f")) _ _)
            0%nat _).
  - reflexivity.
  - vm_compute. reflexivity.
Defined.

(** ** Construction *)

Lemma matchesFallbackRegex_false s :
  matchesFallbackRegex s = false <-> fallbackFails s.
Proof.
  unfold fallbackFails. split.
  - destruct s as [|c t]; [auto|]. simpl. intros H.
    apply andb_false_iff in H as [H|H]; [right; left; eauto|].
    right; right. apply not_true_iff_false in H.
    rewrite forallb_Forall in H. apply not_Forall_Exists in H; [|intros x; apply _].
    apply Exists_exists in H as (x & Hin & Hx).
    exists x. split; [apply list_elem_of_further, Hin|].
    apply not_true_is_false, Hx.
  - intros [->|[(c & t & -> & Hc)|(c & Hin & Hc)]]; [reflexivity|..].
    + simpl. rewrite Hc. reflexivity.
    + destruct s as [|c0 t]; [reflexivity|]. simpl.
      apply andb_false_iff. apply elem_of_cons in Hin as [->|Hin].
      * left. unfold fallbackClass in Hc. unfold isAsciiLetter.
        destruct (isLower c0), (isUpper c0); try discriminate; reflexivity.
      * right. apply not_true_iff_false. rewrite forallb_Forall.
        intros HF. rewrite Forall_forall in HF. specialize (HF c Hin). congruence.
Qed.

Lemma element_cases (options : Options.t) :
  (exists e, InputIdOptions.element options = Normal e)
  \/ InputIdOptions.element options = Throw ElementNotHTMLElement.
Proof.
  unfold InputIdOptions.element.
  destruct (Options.element options) as [[e|]|]; eauto.
Qed.

(** The getters without a loop return or throw, whatever the fuel. *)
Lemma element_ends options : InputIdOptions.element options <> OutOfFuel.
Proof. destruct (element_cases options) as [[e ->]| ->]; discriminate. Qed.

Lemma fallback_ends options : InputIdOptions.fallback options <> OutOfFuel.
Proof.
  unfold InputIdOptions.fallback.
  destruct (Options.fallback options) as [s|]; [|discriminate].
  destruct (matchesFallbackRegex s); discriminate.
Qed.

Lemma separator_ends options : InputIdOptions.separator options <> OutOfFuel.
Proof.
  unfold InputIdOptions.separator.
  destruct (Options.separator options) as [s|]; [|discriminate].
  destruct (isSeparator s); discriminate.
Qed.

Lemma ownerDocument_ends options globalDocument :
  InputIdOptions.ownerDocument options globalDocument <> OutOfFuel.
Proof.
  unfold InputIdOptions.ownerDocument.
  destruct (Options.ownerDocument options) as [[d|]|];
    cbn [mbind Completion_bind]; try discriminate.
  destruct (element_cases options) as [[e ->]| ->];
    cbn [mbind Completion_bind]; [|discriminate].
  destruct e; cbn [mbind Completion_bind]; [discriminate|].
  destruct globalDocument; discriminate.
Qed.

Lemma type_ends {U : Unicode} options : InputIdOptions.type options <> OutOfFuel.
Proof.
  unfold InputIdOptions.type.
  destruct (truthyOpt (Options.type options)); [discriminate|].
  destruct (element_cases options) as [[e ->]| ->];
    cbn [mbind Completion_bind]; [|discriminate].
  destruct e as [e|]; [|discriminate].
  destruct (truthyOpt (HTMLElement.type e)); [discriminate|].
  destruct (truthy (HTMLElement.tagName e)); discriminate.
Qed.

Lemma forceUniqueness_ends {U : Unicode} options fuel :
  InputIdOptions.name options fuel <> OutOfFuel ->
  InputIdOptions.forceUniqueness options fuel <> OutOfFuel.
Proof.
  intros Hname. unfold InputIdOptions.forceUniqueness.
  destruct (Options.forceUniqueness options); [discriminate|].
  destruct (element_cases options) as [[e ->]| ->];
    cbn [mbind Completion_bind]; [|discriminate].
  destruct e; [discriminate|].
  destruct (InputIdOptions.name options fuel); cbn [mbind Completion_bind];
    congruence.
Qed.

(** One getter of the constructor: it returns, or the constructor
    throws what it throws. *)
Ltac getter H :=
  match goal with
  | |- exists _, mbind _ ?c = _ =>
      let E := fresh "E" in
      destruct c eqn:E; cbn [mbind Completion_bind];
      [ | eauto | exfalso; first [exact (H E) | congruence] ]
  end.

(** Without a [parentNode] the name getter returns, whatever the
    fuel. *)
Lemma name_returns {U : Unicode} options fuel :
  Options.element options <> Some NotHTMLElement ->
  Options.parentNode options = None ->
  exists name, InputIdOptions.name options fuel = Normal name.
Proof.
  intros Helement Hparent. unfold InputIdOptions.name.
  destruct (truthyOpt (Options.name options)); [eauto|].
  assert (exists e, InputIdOptions.element options = Normal e) as (e & He).
  { destruct (element_cases options) as [H|H]; [exact H|].
    unfold InputIdOptions.element in H.
    destruct (Options.element options) as [[?|]|]; congruence. }
  rewrite He. cbn [mbind Completion_bind].
  destruct (match e with Some e0 => _ | None => _ end); [eauto|].
  destruct (InputIdOptions.type options) as [t| |] eqn:Et;
    cbn [mbind Completion_bind].
  - destruct (bool_decide _); [|eauto].
    unfold getOptionSelectElement. rewrite Hparent.
    destruct fuel; cbn [getOptionSelectElementLoop mbind Completion_bind]; eauto.
  - unfold InputIdOptions.type in Et. rewrite He in Et.
    cbn [mbind Completion_bind] in Et.
    destruct (truthyOpt (Options.type options)); [discriminate|].
    destruct e as [e|]; [|discriminate].
    destruct (truthyOpt (HTMLElement.type e)); [discriminate|].
    destruct (truthy (HTMLElement.tagName e)); discriminate.
  - destruct (type_ends options Et).
Qed.

Lemma name_ends {U : Unicode} options fuel :
  Options.parentNode options = None ->
  InputIdOptions.name options fuel <> OutOfFuel.
Proof.
  intros Hparent.
  destruct (element_cases options) as [[e He]|He].
  - destruct (name_returns options fuel) as (name & ->);
      [|exact Hparent|discriminate].
    unfold InputIdOptions.element in He.
    destruct (Options.element options) as [[?|]|]; congruence.
  - unfold InputIdOptions.name.
    destruct (truthyOpt (Options.name options)); [discriminate|].
    rewrite He. discriminate.
Qed.

(** What the constructor does check.  A supplied fallback that fails
    its check makes the constructor throw, whatever else the options
    hold.  With a supplied separator
    other than ["_"], ["-"] and [""] the constructor returns no
    instance, and it throws: always when the options have no
    [parentNode], and otherwise as soon as the getters that run before
    the separator getter have returned.  In both cases no instance
    exists, so nothing is generated.  With options that pass every
    check (and, when they have a [parentNode], a name getter that
    returns) the constructor returns an instance, whose string is not
    computed yet. *)
Theorem constructor_validates {U : Unicode} fuel globalDocument options :
  (forall s, Options.fallback options = Some s -> fallbackFails s ->
     exists e, InputId.constructor fuel globalDocument options = Throw e)
  /\ (forall s, Options.separator options = Some s ->
        s <> [UNDERSCORE] /\ s <> [HYPHEN] /\ s <> [] ->
        (forall this, InputId.constructor fuel globalDocument options <> Normal this)
        /\ (Options.parentNode options = None
            \/ InputIdOptions.name options fuel <> OutOfFuel ->
            exists e, InputId.constructor fuel globalDocument options = Throw e))
  /\ (validOptions globalDocument options ->
      Options.parentNode options = None
      \/ (exists name, InputIdOptions.name options fuel = Normal name) ->
      exists this, InputId.constructor fuel globalDocument options = Normal this
        /\ InputId._string this = None).
Proof.
  split; [|split].
  - intros s Hs Hfails. apply matchesFallbackRegex_false in Hfails.
    unfold InputId.constructor.
    getter (element_ends options).
    unfold InputIdOptions.fallback. rewrite Hs, Hfails.
    cbn [mbind Completion_bind]. eauto.
  - intros s Hs (H1 & H2 & H3).
    assert (isSeparator s = false) as Hsep.
    { apply not_true_iff_false. rewrite isSeparator_spec. tauto. }
    split.
    { intros this. unfold InputId.constructor.
      do 5 (match goal with
            | |- mbind _ ?c <> _ =>
                destruct c; cbn [mbind Completion_bind]; try discriminate
            end).
      unfold InputIdOptions.separator. rewrite Hs, Hsep. discriminate. }
    intros Hends.
    assert (InputIdOptions.name options fuel <> OutOfFuel) as Hname
      by (destruct Hends as [Hparent|H]; [apply name_ends, Hparent|exact H]).
    unfold InputId.constructor.
    getter (element_ends options).
    getter (fallback_ends options).
    getter (forceUniqueness_ends options fuel Hname).
    getter Hname.
    getter (ownerDocument_ends options globalDocument).
    unfold InputIdOptions.separator. rewrite Hs, Hsep.
    cbn [mbind Completion_bind]. eauto.
  - intros (Helement & Hfallback & Hseparator & Hdocument) Hreturns.
    assert (exists name, InputIdOptions.name options fuel = Normal name)
      as (name & Hname)
      by (destruct Hreturns as [Hparent|H];
          [apply name_returns; assumption|exact H]).
    assert (exists e, InputIdOptions.element options = Normal e) as (e & He).
    { destruct (element_cases options) as [H|H]; [exact H|].
      unfold InputIdOptions.element in H.
      destruct (Options.element options) as [[?|]|]; congruence. }
    unfold InputId.constructor. rewrite He. cbn [mbind Completion_bind].
    assert (exists f, InputIdOptions.fallback options = Normal f) as (f & ->).
    { unfold InputIdOptions.fallback.
      destruct (Options.fallback options) as [s|]; [|eauto].
      rewrite (Hfallback s eq_refl). eauto. }
    cbn [mbind Completion_bind].
    assert (exists b, InputIdOptions.forceUniqueness options fuel = Normal b)
      as (b & ->).
    { unfold InputIdOptions.forceUniqueness.
      destruct (Options.forceUniqueness options); [eauto|].
      rewrite He, Hname. cbn [mbind Completion_bind]. destruct e; eauto. }
    cbn [mbind Completion_bind]. rewrite Hname. cbn [mbind Completion_bind].
    assert (exists d, InputIdOptions.ownerDocument options globalDocument = Normal d)
      as (d & ->).
    { unfold InputIdOptions.ownerDocument. rewrite He.
      unfold InputIdOptions.element in He.
      destruct (Options.ownerDocument options) as [[d|]|];
        cbn [mbind Completion_bind]; [eauto|congruence|].
      destruct (Options.element options) as [[?|]|]; try discriminate;
        injection He as <-; cbn [mbind Completion_bind]; [eauto|].
      destruct globalDocument; [eauto|congruence]. }
    cbn [mbind Completion_bind].
    assert (exists s, InputIdOptions.separator options = Normal s) as (s & ->).
    { unfold InputIdOptions.separator.
      destruct (Options.separator options) as [s|]; [|eauto].
      rewrite (Hseparator s eq_refl). eauto. }
    cbn [mbind Completion_bind].
    assert (exists t, InputIdOptions.type options = Normal t) as (t & ->).
    { unfold InputIdOptions.type. rewrite He. cbn [mbind Completion_bind].
      destruct (truthyOpt (Options.type options)); [eauto|].
      destruct e as [e|]; [|eauto].
      destruct (truthyOpt (HTMLElement.type e)); [eauto|].
      destruct (truthy (HTMLElement.tagName e)); eauto. }
    cbn [mbind Completion_bind]. eexists. split; reflexivity.
Qed.

Lemma constructor_validates_witness :
  exists e,
    InputId.constructor (U:=basicLatin) 0 (AnHTMLDocument 0%nat) digitFallback
    = Throw e.
Proof.
  refine (proj1 (constructor_validates (U:=basicLatin) 0 (AnHTMLDocument 0%nat)
                   digitFallback) (js "0") eq_refl _).
  right; left. exists 48, []. split; reflexivity.
Defined.

(** The loop of [getOptionSelectElement] reads [optionElement.parentNode]
    again at each turn: when that node is an element other than a
    [select], no amount of fuel lets the call return. *)
Lemma getOptionSelectElement_hangs {U : Unicode} options ancestor tagName :
  Options.parentNode options = Some ancestor ->
  Ancestor.tagName ancestor = Some tagName ->
  toLowerCase tagName <> js "select" ->
  forall fuel, getOptionSelectElement fuel options = OutOfFuel.
Proof.
  intros Hparent Htag Hselect fuel. unfold getOptionSelectElement.
  rewrite Hparent. induction fuel as [|fuel IH]; [reflexivity|].
  cbn [getOptionSelectElementLoop]. rewrite Htag.
  rewrite bool_decide_eq_false_2 by exact Hselect.
  rewrite Hparent. exact IH.
Qed.

(** With these options the name getter never returns, so the separator
    getter is not reached: the constructor neither returns nor throws,
    whatever the fuel. *)
Lemma constructor_hangs fuel :
  InputId.constructor (U:=basicLatin) fuel (AnHTMLDocument 0%nat) optionInDiv
  = OutOfFuel.
Proof.
  assert (getOptionSelectElement (U:=basicLatin) fuel optionInDiv = OutOfFuel) as H
    by (eapply getOptionSelectElement_hangs; [reflexivity..|discriminate]).
  unfold InputId.constructor, InputIdOptions.forceUniqueness, InputIdOptions.name.
  cbn -[getOptionSelectElement]. rewrite H. reflexivity.
Qed.

(** C8.  The constructor at [{type: 'option', separator: 'x',
    parentNode: div}]: the separator is none of ["_"], ["-"], [""],
    and the constructor neither throws nor returns, whatever the fuel.
    The name getter runs before the separator getter, and for the type
    [option] it calls [getOptionSelectElement], whose loop reads the
    parent of the option again at each turn and so never ends on a
    parent that is not a [select].  At [{type: 'option', parentNode:
    fragment}], options that pass every check, the constructor throws,
    in the same function, at [ancestor.tagName.toLowerCase()]. *)
Theorem constructor_separator_unchecked :
  (Options.separator optionInDiv = Some (js "x")
   /\ isSeparator (js "x") = false
   /\ forall fuel,
        InputId.constructor (U:=basicLatin) fuel (AnHTMLDocument 0%nat) optionInDiv
        = OutOfFuel)
  /\ (validOptions (AnHTMLDocument 0%nat) optionInFragment
      /\ forall fuel,
           InputId.constructor (U:=basicLatin) (S fuel) (AnHTMLDocument 0%nat)
             optionInFragment
           = Throw UndefinedProperty).
Proof.
  split; [split; [reflexivity|split; [reflexivity|exact constructor_hangs]]|].
  split.
  - repeat split; try discriminate.
  - intros fuel. reflexivity.
Qed.

(** ** Basic Latin

    On a candidate of ASCII units every host that satisfies the laws
    computes what the Basic Latin host computes, so the evaluations
    above hold for every such host. *)

Lemma fromCodePoints_ascii l :
  Forall (fun c => isAscii c = true) l -> fromCodePoints l = l.
Proof.
  induction 1 as [|c l Hc _ IH]; [reflexivity|].
  unfold fromCodePoints in *. cbn [flat_map]. rewrite IH.
  unfold encodeCodePoint.
  replace (c <? 0x10000) with true; [reflexivity|].
  symmetry. apply N.ltb_lt. classes. lia.
Qed.

Section BasicLatin.
Context {U : Unicode} {L : UnicodeLaws U}.

Lemma html5Class_ascii c :
  isAscii c = true -> html5Class (U:=U) c = html5Class (U:=basicLatin) c.
Proof.
  intros Hc. unfold html5Class.
  rewrite (isLetter_ascii c Hc), (isMark_ascii c Hc). reflexivity.
Qed.

Lemma replaceInvalid_ascii doctype s :
  Forall (fun c => isAscii c = true) s ->
  replaceInvalid (U:=U) doctype s = replaceInvalid (U:=basicLatin) doctype s
  /\ Forall (fun c => isAscii c = true) (replaceInvalid (U:=U) doctype s).
Proof.
  intros Hs. unfold replaceInvalid. destruct (isHtml5 doctype).
  - unfold replaceInvalidHtml5.
    rewrite (codePoints_ascii s) by (apply forallb_Forall, Hs).
    assert (Forall (fun c => isAscii c = true)
              (map (fun cp => if html5Class (U:=U) cp then cp else HYPHEN) s)) as Hm.
    { apply Forall_map. eapply Forall_impl; [exact Hs|].
      intros c Hc. simpl. destruct (html5Class c); [exact Hc|reflexivity]. }
    split.
    + f_equal. apply map_ext_Forall. eapply Forall_impl; [exact Hs|].
      intros c Hc. simpl. rewrite (html5Class_ascii c Hc). reflexivity.
    + rewrite fromCodePoints_ascii; exact Hm.
  - split; [reflexivity|]. apply replaceFrom_Forall; [repeat constructor|exact Hs].
Qed.

Lemma stripped_ascii uncleanedId doctype :
  forallb isAscii uncleanedId = true ->
  stripped (U:=U) uncleanedId doctype = stripped (U:=basicLatin) uncleanedId doctype
  /\ Forall (fun c => isAscii c = true) (stripped (U:=U) uncleanedId doctype).
Proof.
  intros Hs. unfold stripped, collapsed.
  rewrite (normalizeNFKD_ascii uncleanedId Hs). change (normalizeNFKD (Unicode:=basicLatin) uncleanedId) with uncleanedId.
  apply forallb_Forall in Hs.
  destruct (replaceInvalid_ascii doctype
              (replaceAll combiningMarksRegex [] uncleanedId)) as [E Hascii].
  { apply replaceFrom_Forall; [constructor|exact Hs]. }
  rewrite <- E. split; [reflexivity|].
  apply replaceFrom_Forall; [constructor|].
  apply replaceFrom_Forall; [repeat constructor|exact Hascii].
Qed.

Lemma clean_basicLatin uncleanedId doctype fallback separator :
  forallb isAscii uncleanedId = true ->
  clean (U:=U) uncleanedId doctype fallback separator
  = clean (U:=basicLatin) uncleanedId doctype fallback separator.
Proof.
  intros Hs. destruct (stripped_ascii uncleanedId doctype Hs) as [E Hascii].
  assert (cleanedHtmlId (U:=U) uncleanedId doctype
          = cleanedHtmlId (U:=basicLatin) uncleanedId doctype) as Hc.
  { unfold cleanedHtmlId. rewrite <- E.
    rewrite toLowerCase_ascii by (apply forallb_Forall, Hascii). reflexivity. }
  unfold clean. rewrite Hc. reflexivity.
Qed.

End BasicLatin.

(** ** The scenarios of the test suite

    The scenarios whose strings are ASCII, on the Basic Latin host;
    [clean_basicLatin] carries the evaluations of [clean] over to every
    host that satisfies the laws. *)

Section Scenarios.
Local Open Scope string_scope.
Let document := AnHTMLDocument 0%nat.
Let run := stringOf (U:=basicLatin) 3 document emptyHeap.
Let new := InputId.constructor (U:=basicLatin) 3 document.

Example name_only :
  run (bag None (Some "username") None None None None) = Normal (js "username").
Proof. vm_compute. reflexivity. Qed.

Example name_and_prefix :
  run (bag None (Some "username") None (Some "personal-info") None None)
  = Normal (js "personal-info_username").
Proof. vm_compute. reflexivity. Qed.

Example value_of_text_ignored :
  run (bag (Some "text") (Some "color") (Some "red") None None None)
  = Normal (js "color").
Proof. vm_compute. reflexivity. Qed.

Example value_of_radio_used :
  run (bag (Some "radio") (Some "color") (Some "red") None None None)
  = Normal (js "color_red").
Proof. vm_compute. reflexivity. Qed.

Example value_of_option_used :
  run (bag (Some "option") (Some "color") (Some "blue") None None None)
  = Normal (js "color_blue").
Proof. vm_compute. reflexivity. Qed.

Example brackets_in_html5 :
  clean (U:=basicLatin) (js "cAo-Cao[123][]") html5Doctype (js "f") (js "_")
  = js "cao-cao-123".
Proof. vm_compute. reflexivity. Qed.

Example leading_digit_in_html4 :
  clean (U:=basicLatin) (js "1cAo-Cao[123][]") html4Doctype (js "f") (js "_")
  = js "f_1cao-cao-123".
Proof. vm_compute. reflexivity. Qed.

Example leading_digit_in_html5 :
  clean (U:=basicLatin) (js "1cAo-Cao[123][]") html5Doctype (js "f") (js "_")
  = js "1cao-cao-123".
Proof. vm_compute. reflexivity. Qed.

Example empty_options_three_times :
  match requestAll (U:=basicLatin) 3 emptyHeap 0%nat [] (js "f") (js "_")
          [(DocumentNode 0%nat, inputElement 1);
           (DocumentNode 0%nat, inputElement 2);
           (DocumentNode 0%nat, inputElement 3)]
  with
  | Normal (ids, _) => ids = [js "f"; js "f_1"; js "f_2"]
  | _ => False
  end.
Proof. vm_compute. reflexivity. Qed.

Example fallback_accepted :
  returned (new (bag None None None None None (Some "a0_b-c"))) = true.
Proof. vm_compute. reflexivity. Qed.

Example fallback_empty_refused :
  new (bag None None None None None (Some "")) = Throw FallbackInvalid.
Proof. vm_compute. reflexivity. Qed.

Example fallback_digit_refused :
  new (bag None None None None None (Some "0")) = Throw FallbackInvalid.
Proof. vm_compute. reflexivity. Qed.

(** ['a' + U+00E7] *)
Example fallback_cedilla_refused :
  new {| Options.element := None; Options.type := None; Options.name := None;
         Options.value := None; Options.ownerDocument := None;
         Options.prefix := None; Options.formId := None;
         Options.separator := None; Options.fallback := Some [97; 231];
         Options.forceUniqueness := None; Options.parentNode := None |}
  = Throw FallbackInvalid.
Proof. vm_compute. reflexivity. Qed.

Example separator_two_units_refused :
  new (bag None None None None (Some "_-") None) = Throw SeparatorInvalid.
Proof. vm_compute. reflexivity. Qed.

Example separator_letter_refused :
  new (bag None None None None (Some "a") None) = Throw SeparatorInvalid.
Proof. vm_compute. reflexivity. Qed.

Example separators_accepted :
  returned (new (bag None None None None (Some "_") None)) = true
  /\ returned (new (bag None None None None (Some "-") None)) = true
  /\ returned (new (bag None None None None (Some "") None)) = true.
Proof. vm_compute. repeat split; reflexivity. Qed.

Example ownerDocument_refused :
  new {| Options.element := None; Options.type := None; Options.name := None;
         Options.value := None; Options.ownerDocument := Some NotHTMLDocument;
         Options.prefix := None; Options.formId := None;
         Options.separator := None; Options.fallback := None;
         Options.forceUniqueness := None; Options.parentNode := None |}
  = Throw OwnerDocumentNotHTMLDocument.
Proof. vm_compute. reflexivity. Qed.

Example element_refused :
  new {| Options.element := Some NotHTMLElement; Options.type := None;
         Options.name := None; Options.value := None;
         Options.ownerDocument := None; Options.prefix := None;
         Options.formId := None; Options.separator := None;
         Options.fallback := None; Options.forceUniqueness := None;
         Options.parentNode := None |}
  = Throw ElementNotHTMLElement.
Proof. vm_compute. reflexivity. Qed.

End Scenarios.

(* ================================================================= *)
(** * Further properties *)

(** ** The identifiers [clean] returns *)

Lemma matchesFallbackRegex_spec s :
  matchesFallbackRegex s = true <->
  exists c t, s = c :: t /\ isAsciiLetter c = true
              /\ Forall (fun x => legacyClass x = true) t.
Proof.
  split.
  - destruct s as [|c t]; [discriminate|]. simpl.
    rewrite andb_true_iff. intros [Hc Ht]. exists c, t.
    split; [reflexivity|]. split; [exact Hc|].
    apply forallb_Forall in Ht. eapply Forall_impl; [exact Ht|].
    intros x Hx. rewrite <- fallbackClass_legacyClass. exact Hx.
  - intros (c & t & -> & Hc & Ht). simpl. rewrite Hc. simpl.
    apply forallb_Forall. eapply Forall_impl; [exact Ht|].
    intros x Hx. rewrite fallbackClass_legacyClass. exact Hx.
Qed.

Lemma isAsciiLetter_legacyClass c : isAsciiLetter c = true -> legacyClass c = true.
Proof.
  unfold isAsciiLetter, legacyClass.
  destruct (isDigit c), (isUpper c), (isLower c); try discriminate; reflexivity.
Qed.

(** The last step of [clean], on a string of [0-9a-zA-Z_-] in a
    document that is not HTML5. *)
Lemma finish_valid cleaned fallback separator :
  Forall (fun c => legacyClass c = true) cleaned ->
  matchesFallbackRegex fallback = true ->
  isSeparator separator = true ->
  matchesFallbackRegex
    (if Nat.eqb (List.length cleaned) 0 then fallback
     else if negb false && firstIsNotLetter cleaned
          then fallback ++ separator ++ cleaned
          else cleaned) = true.
Proof.
  intros Hc Hf Hs. destruct cleaned as [|c t]; [exact Hf|].
  cbn [List.length Nat.eqb negb andb firstIsNotLetter].
  destruct (isAsciiLetter c) eqn:E; cbn [negb].
  - apply matchesFallbackRegex_spec. exists c, t.
    apply Forall_cons_iff in Hc as [_ Ht]. auto.
  - apply matchesFallbackRegex_spec in Hf as (f & ft & -> & Hfl & Hft).
    apply matchesFallbackRegex_spec. exists f, (ft ++ separator ++ c :: t).
    split; [reflexivity|]. split; [exact Hfl|].
    apply Forall_app. split; [exact Hft|].
    apply Forall_app. split; [apply isSeparator_legacy, Hs|exact Hc].
Qed.

Lemma attempt_valid base separator k :
  matchesFallbackRegex base = true ->
  isSeparator separator = true ->
  matchesFallbackRegex (attempt base separator k) = true.
Proof.
  intros Hb Hs. destruct k as [|k]; [exact Hb|]. cbn [attempt].
  apply matchesFallbackRegex_spec in Hb as (c & t & -> & Hc & Ht).
  apply matchesFallbackRegex_spec. eexists c, _. split; [reflexivity|].
  split; [exact Hc|]. apply Forall_app. split; [exact Ht|].
  apply Forall_app. split; [apply isSeparator_legacy, Hs|].
  unfold numberToString. induction (N.to_uint (N.of_nat (S k)));
    cbn [digitUnits]; constructor; auto.
Qed.

Section LoopResults.
Variable getElementById : JSString -> option Element.
Variable node : Node.
Variables cleanedBaseId separator : JSString.

(** Whatever the loop returns is one of the identifiers it tries, and
    passes the test that ends the loop. *)
Lemma loopAt_result fuel : forall k id,
  loopAt getElementById node cleanedBaseId separator fuel k = Normal id ->
  exists n, id = attempt cleanedBaseId separator n
    /\ exitsAt getElementById node cleanedBaseId separator n = true.
Proof.
  induction fuel as [|fuel IH]; intros k id; [discriminate|].
  rewrite loopAt_unfold.
  destruct (exitsAt getElementById node cleanedBaseId separator k) eqn:E.
  - intros [= <-]. eauto.
  - apply IH.
Qed.

End LoopResults.

Lemma generateUnique_result {U : Unicode} fuel h baseId node fallback separator id :
  generateUniqueFromBaseId fuel h baseId node fallback separator = Normal id ->
  exists n,
    id = attempt (clean baseId (doctype (h (ownerDocumentOf node))) fallback separator)
           separator n
    /\ exitsAt (getElementById (h (ownerDocumentOf node))) node
         (clean baseId (doctype (h (ownerDocumentOf node))) fallback separator)
         separator n = true.
Proof. apply (loopAt_result _ _ _ _ fuel 0%nat). Qed.

(** X1.  In a document that is not HTML5, with a valid fallback and a
    valid separator, what [clean] returns is an HTML4 identifier: it
    matches [/^[a-zA-Z][a-zA-Z0-9_-]*$/].  So does whatever
    [generateUniqueFromBaseId] returns for a node of such a document. *)
Theorem html4_identifier {U : Unicode} {L : UnicodeLaws U}
    uncleanedId doctype0 fallback separator :
  matchesFallbackRegex fallback = true ->
  isSeparator separator = true ->
  (isHtml5 doctype0 = false ->
     matchesFallbackRegex (clean uncleanedId doctype0 fallback separator) = true)
  /\ (forall fuel h node id,
        isHtml5 (doctype (h (ownerDocumentOf node))) = false ->
        generateUniqueFromBaseId fuel h uncleanedId node fallback separator
        = Normal id ->
        matchesFallbackRegex id = true).
Proof.
  intros Hf Hs.
  assert (forall dt, isHtml5 dt = false ->
            matchesFallbackRegex (clean uncleanedId dt fallback separator) = true)
    as Hclean.
  { intros dt Hmode. unfold clean. rewrite Hmode.
    apply finish_valid; [apply cleanedHtmlId_legacy, Hmode|exact Hf|exact Hs]. }
  split; [apply Hclean|].
  intros fuel h node id Hmode Hgen.
  apply generateUnique_result in Hgen as (n & -> & _).
  apply attempt_valid; [apply Hclean, Hmode|exact Hs].
Qed.

Lemma html4_identifier_witness :
  matchesFallbackRegex
    (clean (U:=basicLatin) (js "1 A") html4Doctype (js "f") (js "_")) = true.
Proof.
  refine (proj1 (html4_identifier (U:=basicLatin) (js "1 A") html4Doctype
                   (js "f") (js "_") _ _) _); reflexivity.
Defined.

Lemma codePoints_app_aux t n : forall s,
  (List.length s <= n)%nat ->
  forallb isScalarValue (codePoints s) = true ->
  codePoints (s ++ t) = codePoints s ++ codePoints t.
Proof.
  induction n as [|n IH]; intros s Hlen Hs.
  - destruct s; [reflexivity|simpl in Hlen; lia].
  - destruct s as [|c [|l s']]; [reflexivity| |].
    + cbn [codePoints forallb] in Hs. rewrite andb_true_r in Hs.
      cbn [app]. rewrite codePoints_cons_not_high; [reflexivity|].
      apply not_surrogate_not_high. classes. apply inRange_false. assumption.
    + cbn [app]. cbn [codePoints] in Hs |- *.
      destruct (isHighSurrogate c && isLowSurrogate l).
      * cbn [forallb] in Hs. apply andb_true_iff in Hs as [_ Hs].
        cbn [app]. f_equal. apply IH; [simpl in Hlen; lia|exact Hs].
      * cbn [forallb] in Hs. apply andb_true_iff in Hs as [_ Hs].
        cbn [app]. f_equal.
        apply (IH (l :: s')); [simpl in Hlen |- *; lia|exact Hs].
Qed.

(** Behind a string of scalar values the code points of what follows
    are read on their own. *)
Lemma codePoints_app s t :
  forallb isScalarValue (codePoints s) = true ->
  codePoints (s ++ t) = codePoints s ++ codePoints t.
Proof. apply (codePoints_app_aux t (List.length s)). lia. Qed.

Lemma numberToString_digits n :
  Forall (fun c => isDigit c = true) (numberToString n).
Proof.
  unfold numberToString.
  induction (N.to_uint n); cbn [digitUnits]; constructor; auto.
Qed.

Lemma isDigit_legacyClass c : isDigit c = true -> legacyClass c = true.
Proof. unfold legacyClass. intros ->. reflexivity. Qed.

Section Allowed.
Context {U : Unicode} {L : UnicodeLaws U}.

Lemma legacyClass_html5Class c : legacyClass c = true -> html5Class c = true.
Proof.
  intros Hc. unfold html5Class.
  rewrite (isLetter_ascii c (legacyClass_ascii c Hc)).
  unfold legacyClass in Hc. unfold isAsciiLetter.
  destruct (isDigit c), (isUpper c), (isLower c), (c =? UNDERSCORE),
    (c =? HYPHEN); try discriminate; simpl;
    rewrite ?orb_true_r; reflexivity.
Qed.

(** A string of [0-9a-zA-Z_-] is allowed in either mode. *)
Lemma legacy_allowed doctype0 s :
  Forall (fun c => legacyClass c = true) s ->
  forallb (allowedCodePoint doctype0) (codePoints s) = true
  /\ forallb isScalarValue (codePoints s) = true.
Proof.
  intros Hs.
  rewrite codePoints_no_high
    by (eapply Forall_impl; [exact Hs|apply legacyClass_not_high]).
  split; apply forallb_Forall; (eapply Forall_impl; [exact Hs|]); intros c Hc.
  - unfold allowedCodePoint. destruct (isHtml5 doctype0);
      [apply legacyClass_html5Class, Hc|exact Hc].
  - apply legacyClass_scalar, Hc.
Qed.

Lemma allowed_scalar doctype0 l :
  forallb (allowedCodePoint doctype0) l = true -> forallb isScalarValue l = true.
Proof.
  intros H. apply forallb_Forall in H. apply forallb_Forall.
  eapply Forall_impl; [exact H|]. intros c. unfold allowedCodePoint.
  destruct (isHtml5 doctype0); [apply html5Class_scalar|apply legacyClass_scalar].
Qed.

Lemma clean_allowed_all uncleanedId doctype0 fallback separator :
  matchesFallbackRegex fallback = true ->
  isSeparator separator = true ->
  clean uncleanedId doctype0 fallback separator <> []
  /\ forallb (allowedCodePoint doctype0)
       (codePoints (clean uncleanedId doctype0 fallback separator)) = true.
Proof.
  intros Hf Hs.
  pose proof (matchesFallbackRegex_legacy fallback Hf) as Hfl.
  rewrite clean_unfold.
  destruct (cleanedHtmlId uncleanedId doctype0) as [|c t] eqn:E.
  - split; [destruct fallback; [discriminate|congruence]|].
    apply legacy_allowed, Hfl.
  - destruct (isHtml5 doctype0) eqn:Hmode; cbn [negb andb].
    + split; [discriminate|]. rewrite <- E. unfold allowedCodePoint.
      rewrite Hmode. apply cleanedHtmlId_html5, Hmode.
    + pose proof (cleanedHtmlId_legacy uncleanedId doctype0 Hmode) as Hc.
      rewrite E in Hc.
      destruct (negb (isAsciiLetter c)).
      * split; [destruct fallback; [discriminate|discriminate]|].
        apply legacy_allowed. apply Forall_app. split; [exact Hfl|].
        apply Forall_app. split; [apply isSeparator_legacy, Hs|exact Hc].
      * split; [discriminate|]. apply legacy_allowed, Hc.
Qed.

Lemma attempt_allowed doctype0 base separator k :
  isSeparator separator = true ->
  base <> [] ->
  forallb (allowedCodePoint doctype0) (codePoints base) = true ->
  attempt base separator k <> []
  /\ forallb (allowedCodePoint doctype0) (codePoints (attempt base separator k)) = true.
Proof.
  intros Hs Hne Hb. destruct k as [|k]; [auto|]. cbn [attempt]. split.
  - destruct base; [congruence|discriminate].
  - rewrite codePoints_app by (eapply allowed_scalar, Hb).
    rewrite forallb_app, Hb. cbn [andb].
    apply legacy_allowed. apply Forall_app.
    split; [apply isSeparator_legacy, Hs|].
    eapply Forall_impl; [apply numberToString_digits|].
    apply isDigit_legacyClass.
Qed.

End Allowed.

(** X2.  With a valid fallback and a valid separator, [clean] never
    returns the empty string, and every code point of what it returns,
    the fallback taken as it stands included, is in the allowed set of
    the document.  The same holds of whatever
    [generateUniqueFromBaseId] returns: the separator and the digits it
    appends are allowed in either mode. *)
Theorem identifiers_allowed {U : Unicode} {L : UnicodeLaws U}
    uncleanedId doctype0 fallback separator :
  matchesFallbackRegex fallback = true ->
  isSeparator separator = true ->
  (clean uncleanedId doctype0 fallback separator <> []
   /\ forallb (allowedCodePoint doctype0)
        (codePoints (clean uncleanedId doctype0 fallback separator)) = true)
  /\ (forall fuel h node id,
        generateUniqueFromBaseId fuel h uncleanedId node fallback separator
        = Normal id ->
        id <> []
        /\ forallb (allowedCodePoint (doctype (h (ownerDocumentOf node))))
             (codePoints id) = true).
Proof.
  intros Hf Hs. split; [apply clean_allowed_all; assumption|].
  intros fuel h node id Hgen.
  apply generateUnique_result in Hgen as (n & -> & _).
  destruct (clean_allowed_all uncleanedId (doctype (h (ownerDocumentOf node)))
              fallback separator Hf Hs) as [Hne Hall].
  apply attempt_allowed; assumption.
Qed.

Lemma identifiers_allowed_witness :
  clean (U:=basicLatin) (js "[]") html5Doctype (js "f") (js "_") <> []
  /\ forallb (allowedCodePoint (U:=basicLatin) html5Doctype)
       (codePoints (clean (U:=basicLatin) (js "[]") html5Doctype (js "f") (js "_")))
     = true.
Proof.
  refine (proj1 (identifiers_allowed (U:=basicLatin) (js "[]") html5Doctype
                   (js "f") (js "_") _ _)); reflexivity.
Defined.

(** ** The shape of the cleaned string *)

Lemma replaceFrom_overrun re rep b p s :
  (List.length s <= S p)%nat -> replaceFrom re rep b (S p) s = [].
Proof.
  intros Hlen. rewrite replaceFrom_pending, drop_ge by exact Hlen. reflexivity.
Qed.

Lemma noHyphenPair_tail c t : noHyphenPair (c :: t) = true -> noHyphenPair t = true.
Proof. simpl. rewrite andb_true_iff. tauto. Qed.

Lemma noHyphenPair_drop n : forall s,
  noHyphenPair s = true -> noHyphenPair (drop n s) = true.
Proof.
  induction n as [|n IH]; intros [|c t] H; try exact H.
  cbn [drop]. apply IH. exact (noHyphenPair_tail c t H).
Qed.

(** Behind index 0 the end-stripping pattern matches up to the end of
    the string or not at all. *)
Lemma strip_tail_cases c t :
  replaceFrom endsRegex [] false 0 (c :: t) = []
  \/ replaceFrom endsRegex [] false 0 (c :: t)
     = c :: replaceFrom endsRegex [] false 0 t.
Proof.
  cbn [replaceFrom]. destruct (endsRegex false (c :: t)) as [k|] eqn:E; [|auto].
  left. cbn [app]. unfold endsRegex in E.
  destruct (hyphenRun (c :: t)) as [|n] eqn:Hrun.
  - destruct (c =? UNDERSCORE); [|discriminate].
    destruct t; [|discriminate]. injection E as <-. reflexivity.
  - destruct (Nat.eqb (S n) (List.length (c :: t))) eqn:Hlen; [|discriminate].
    injection E as <-. apply Nat.eqb_eq in Hlen. simpl in Hlen.
    destruct n as [|n].
    + destruct t; [reflexivity|simpl in Hlen; lia].
    + apply replaceFrom_overrun. lia.
Qed.

Lemma strip_tail_noHyphenPair s :
  noHyphenPair s = true ->
  noHyphenPair (replaceFrom endsRegex [] false 0 s) = true
  /\ (startsWithHyphen s = false ->
      startsWithHyphen (replaceFrom endsRegex [] false 0 s) = false).
Proof.
  induction s as [|c t IH]; intros H; [split; reflexivity|].
  destruct (IH (noHyphenPair_tail c t H)) as [IH1 IH2].
  destruct (strip_tail_cases c t) as [-> | ->]; [split; reflexivity|].
  split; [|auto]. cbn [noHyphenPair] in H |- *.
  apply andb_true_iff in H as [Hc _]. rewrite IH1, andb_true_r.
  apply negb_true_iff in Hc. apply negb_true_iff.
  apply andb_false_iff in Hc as [Hc|Hc]; [rewrite Hc; reflexivity|].
  rewrite (IH2 Hc). apply andb_false_r.
Qed.

Lemma strip_noHyphenPair s :
  noHyphenPair s = true -> noHyphenPair (replaceAll endsRegex [] s) = true.
Proof.
  intros H. destruct s as [|c t]; [reflexivity|].
  unfold replaceAll. cbn [replaceFrom].
  pose proof (noHyphenPair_tail c t H) as Ht.
  destruct (endsRegex true (c :: t)) as [[|k]|].
  - cbn [app]. apply strip_tail_noHyphenPair, Ht.
  - cbn [app]. rewrite replaceFrom_pending.
    apply strip_tail_noHyphenPair, noHyphenPair_drop, Ht.
  - destruct (strip_tail_noHyphenPair t Ht) as [H1 H2].
    cbn [noHyphenPair] in H |- *. apply andb_true_iff in H as [Hc _].
    rewrite H1, andb_true_r. apply negb_true_iff in Hc. apply negb_true_iff.
    apply andb_false_iff in Hc as [Hc|Hc]; [rewrite Hc; reflexivity|].
    rewrite (H2 Hc). apply andb_false_r.
Qed.

Lemma asciiLower_hyphen c : (asciiLower c =? HYPHEN) = (c =? HYPHEN).
Proof.
  unfold asciiLower, isUpper, HYPHEN. destruct (inRange 65 90 c) eqn:E; [|reflexivity].
  apply inRange_spec in E.
  rewrite (proj2 (N.eqb_neq (c + 32) 45)), (proj2 (N.eqb_neq c 45)) by lia.
  reflexivity.
Qed.

Lemma noHyphenPair_asciiLower s :
  noHyphenPair (map asciiLower s) = noHyphenPair s.
Proof.
  induction s as [|c t IH]; [reflexivity|].
  cbn [map noHyphenPair]. rewrite IH, asciiLower_hyphen.
  destruct t; [reflexivity|]. cbn [map startsWithHyphen].
  rewrite asciiLower_hyphen. reflexivity.
Qed.

Lemma legacyClass_lowerClass c :
  legacyClass c = true -> lowerClass (asciiLower c) = true.
Proof.
  rewrite legacyClass_spec. intros H. unfold lowerClass, isDigit, isLower,
    UNDERSCORE, HYPHEN, asciiLower, isUpper.
  destruct (inRange 65 90 c) eqn:E.
  - apply inRange_spec in E.
    rewrite (proj2 (inRange_spec 97 122 (c + 32))) by lia.
    apply orb_true_iff. left. apply orb_true_iff. left. apply orb_true_r.
  - apply inRange_false in E.
    rewrite !orb_true_iff, !inRange_spec, !N.eqb_eq. lia.
Qed.

(** X3.  The string that is lower-cased never has two hyphens in a
    row, in either mode.  In a document that is not HTML5 the cleaned
    string consists of [0-9a-z_-] (no upper-case letter is left) and has
    no two hyphens in a row. *)
Theorem cleaned_shape {U : Unicode} {L : UnicodeLaws U} uncleanedId doctype0 :
  noHyphenPair (stripped uncleanedId doctype0) = true
  /\ (isHtml5 doctype0 = false ->
      forallb lowerClass (cleanedHtmlId uncleanedId doctype0) = true
      /\ noHyphenPair (cleanedHtmlId uncleanedId doctype0) = true).
Proof.
  assert (noHyphenPair (stripped uncleanedId doctype0) = true) as Hpair
    by (apply strip_noHyphenPair, collapse_noHyphenPair).
  split; [exact Hpair|]. intros Hmode.
  pose proof (stripped_legacy uncleanedId doctype0 Hmode) as Hs.
  unfold cleanedHtmlId. rewrite toLowerCase_ascii.
  - split; [|rewrite noHyphenPair_asciiLower; exact Hpair].
    apply forallb_Forall, Forall_map. eapply Forall_impl; [exact Hs|].
    intros c Hc. apply legacyClass_lowerClass, Hc.
  - apply forallb_Forall. eapply Forall_impl; [exact Hs|].
    intros c Hc. apply legacyClass_ascii, Hc.
Qed.

Lemma cleaned_shape_witness :
  forallb lowerClass
    (cleanedHtmlId (U:=basicLatin) (js "A--b  C") html4Doctype) = true
  /\ noHyphenPair (cleanedHtmlId (U:=basicLatin) (js "A--b  C") html4Doctype) = true.
Proof.
  refine (proj2 (cleaned_shape (U:=basicLatin) (js "A--b  C") html4Doctype) _).
  reflexivity.
Defined.

(** ** Identifiers that [clean] leaves alone *)

Lemma replaceFrom_marks_id rep s : forall b,
  Forall (fun c => isAscii c = true) s ->
  replaceFrom combiningMarksRegex rep b 0 s = s.
Proof.
  induction s as [|c t IH]; intros b Hs; [reflexivity|].
  apply Forall_cons_iff in Hs as [Hc Ht]. cbn [replaceFrom combiningMarksRegex].
  replace (inRange 0x300 0x36F c) with false
    by (symmetry; apply inRange_false; classes; lia).
  rewrite IH by exact Ht. reflexivity.
Qed.

Lemma replaceFrom_legacy_id rep s : forall b,
  Forall (fun c => legacyClass c = true) s ->
  replaceFrom legacyInvalidRegex rep b 0 s = s.
Proof.
  induction s as [|c t IH]; intros b Hs; [reflexivity|].
  apply Forall_cons_iff in Hs as [Hc Ht]. cbn [replaceFrom legacyInvalidRegex].
  rewrite Hc, IH by exact Ht. reflexivity.
Qed.

Lemma replaceInvalid_id {U : Unicode} {L : UnicodeLaws U} doctype0 s :
  Forall (fun c => legacyClass c = true) s -> replaceInvalid doctype0 s = s.
Proof.
  intros Hs. unfold replaceInvalid. destruct (isHtml5 doctype0);
    [|apply replaceFrom_legacy_id, Hs].
  assert (Forall (fun c => isAscii c = true) s) as Hascii
    by (eapply Forall_impl; [exact Hs|apply legacyClass_ascii]).
  unfold replaceInvalidHtml5.
  rewrite (codePoints_ascii s) by (apply forallb_Forall, Hascii).
  replace (map (fun cp => if html5Class cp then cp else HYPHEN) s) with s.
  - apply fromCodePoints_ascii, Hascii.
  - symmetry. rewrite <- (map_id s) at 2. apply map_ext_Forall.
    eapply Forall_impl; [exact Hs|]. intros c Hc. simpl.
    rewrite (legacyClass_html5Class c Hc). reflexivity.
Qed.

Lemma collapse_id s : forall b,
  noHyphenPair s = true -> replaceFrom hyphensRegex [HYPHEN] b 0 s = s.
Proof.
  induction s as [|c t IH]; intros b H; [reflexivity|].
  rewrite collapse_step. cbn [noHyphenPair] in H.
  apply andb_true_iff in H as [Hc Ht]. apply negb_true_iff in Hc.
  rewrite Hc, IH by exact Ht. reflexivity.
Qed.

Lemma hyphenRun_all s :
  hyphenRun s = List.length s -> forall x, last s = Some x -> x = HYPHEN.
Proof.
  induction s as [|c t IH]; intros Hrun x Hx; [discriminate|].
  simpl in Hrun. destruct (c =? HYPHEN) eqn:E; [|discriminate].
  injection Hrun as Hrun. destruct t as [|d t'].
  - injection Hx as <-. apply N.eqb_eq, E.
  - apply (IH Hrun). exact Hx.
Qed.

Lemma endsRegex_tail_none c t :
  (forall x, last (c :: t) = Some x -> isHU x = false) ->
  endsRegex false (c :: t) = None.
Proof.
  intros Hlast. unfold endsRegex.
  destruct (hyphenRun (c :: t)) as [|n] eqn:Hrun.
  - destruct (c =? UNDERSCORE) eqn:E; [|reflexivity].
    destruct t; [|reflexivity].
    specialize (Hlast c eq_refl). unfold isHU in Hlast.
    rewrite E, orb_true_r in Hlast. discriminate.
  - destruct (Nat.eqb (S n) (List.length (c :: t))) eqn:Hlen; [|reflexivity].
    apply Nat.eqb_eq in Hlen. rewrite <- Hrun in Hlen.
    destruct (last (c :: t)) as [x|] eqn:Hx.
    + pose proof (hyphenRun_all _ Hlen x Hx) as ->.
      specialize (Hlast _ eq_refl). discriminate.
    + destruct t; discriminate || (apply last_None in Hx; discriminate).
Qed.

Lemma strip_tail_id s :
  (forall x, last s = Some x -> isHU x = false) ->
  replaceFrom endsRegex [] false 0 s = s.
Proof.
  induction s as [|c t IH]; intros Hlast; [reflexivity|].
  cbn [replaceFrom]. rewrite (endsRegex_tail_none c t Hlast). f_equal.
  apply IH. intros x Hx. apply Hlast. destruct t; [discriminate|exact Hx].
Qed.

Lemma lowerClass_legacyClass c : lowerClass c = true -> legacyClass c = true.
Proof.
  unfold lowerClass, legacyClass.
  destruct (isDigit c), (isLower c), (isUpper c); simpl; auto.
Qed.

Lemma lowerClass_asciiLower c : lowerClass c = true -> asciiLower c = c.
Proof.
  intros H. unfold asciiLower. replace (isUpper c) with false; [reflexivity|].
  symmetry. unfold lowerClass, isDigit, isLower in H. unfold isUpper.
  apply inRange_false. classes; lia.
Qed.

(** X4.  A valid lower-case identifier is left alone: a string of
    [0-9a-z_-] that starts with a letter, does not end with a hyphen or
    an underscore and has no two hyphens in a row is returned by
    [clean] as it is, in either mode and whatever the fallback and the
    separator. *)
Theorem clean_fixed_point {U : Unicode} {L : UnicodeLaws U}
    c t doctype0 fallback separator :
  isLower c = true ->
  forallb lowerClass (c :: t) = true ->
  noHyphenPair (c :: t) = true ->
  (forall x, last (c :: t) = Some x -> isHU x = false) ->
  clean (c :: t) doctype0 fallback separator = c :: t.
Proof.
  intros Hc Hclass Hpair Hlast.
  apply forallb_Forall in Hclass.
  assert (Forall (fun x => legacyClass x = true) (c :: t)) as Hlegacy
    by (eapply Forall_impl; [exact Hclass|apply lowerClass_legacyClass]).
  assert (Forall (fun x => isAscii x = true) (c :: t)) as Hascii
    by (eapply Forall_impl; [exact Hlegacy|apply legacyClass_ascii]).
  assert (stripped (c :: t) doctype0 = c :: t) as Hstripped.
  { unfold stripped, collapsed, replaceAll.
    rewrite normalizeNFKD_ascii by (apply forallb_Forall, Hascii).
    rewrite replaceFrom_marks_id by exact Hascii.
    rewrite replaceInvalid_id by exact Hlegacy.
    rewrite collapse_id by exact Hpair.
    cbn [replaceFrom].
    replace (endsRegex true (c :: t)) with (@None nat).
    - f_equal. apply strip_tail_id. intros x Hx. apply Hlast.
      destruct t; [discriminate|exact Hx].
    - unfold endsRegex. cbn [hyphenRun].
      replace (c =? HYPHEN) with false
        by (symmetry; apply N.eqb_neq; classes; lia).
      replace (c =? UNDERSCORE) with false
        by (symmetry; apply N.eqb_neq; classes; lia).
      reflexivity. }
  rewrite clean_unfold. unfold cleanedHtmlId. rewrite Hstripped.
  rewrite toLowerCase_ascii by (apply forallb_Forall, Hascii).
  replace (map asciiLower (c :: t)) with (c :: t).
  - unfold isAsciiLetter. rewrite Hc, orb_true_r. cbn [negb].
    rewrite andb_false_r. reflexivity.
  - symmetry. rewrite <- (map_id (c :: t)) at 2. apply map_ext_Forall.
    eapply Forall_impl; [exact Hclass|]. intros x Hx.
    apply lowerClass_asciiLower, Hx.
Qed.

Lemma clean_fixed_point_witness :
  clean (U:=basicLatin) (js "personal-info_username") html4Doctype (js "f") (js "-")
  = js "personal-info_username".
Proof.
  refine (clean_fixed_point (U:=basicLatin) 112 (js "ersonal-info_username")
            html4Doctype (js "f") (js "-") _ _ _ _); try reflexivity.
  intros x [= <-]. reflexivity.
Defined.

(** ** What the resolver returns *)

Lemma exitsAt_spec getElementById0 node base separator n :
  exitsAt getElementById0 node base separator n = true ->
  getElementById0 (attempt base separator n) = None
  \/ exists e, node = ElementNode e
       /\ getElementById0 (attempt base separator n) = Some e.
Proof.
  unfold exitsAt. destruct (getElementById0 (attempt base separator n)) as [e|];
    [|auto].
  destruct node as [e'|d]; cbn [sameNode]; [|discriminate].
  intros H. apply bool_decide_eq_true in H. subst. eauto.
Qed.

(** X5.  [generateUniqueFromBaseId] never returns an identifier that
    another element holds: what it returns is held by no element of the
    owner document, or by the element it was called for.  It returns the
    base with a suffix no greater than the number of identifiers in the
    document, after one lookup per identifier tried. *)
Theorem generateUnique_never_collides {U : Unicode}
    h baseId node fallback separator :
  (forall fuel id,
     generateUniqueFromBaseId fuel h baseId node fallback separator = Normal id ->
     getElementById (h (ownerDocumentOf node)) id = None
     \/ exists e, node = ElementNode e
          /\ getElementById (h (ownerDocumentOf node)) id = Some e)
  /\ exists k,
       (k <= size (elementsById (h (ownerDocumentOf node))))%nat
       /\ forall fuel, (k < fuel)%nat ->
          generateUniqueFromBaseId fuel h baseId node fallback separator
          = Normal
              (attempt (clean baseId (doctype (h (ownerDocumentOf node)))
                          fallback separator) separator k).
Proof.
  split.
  - intros fuel id Hgen.
    apply generateUnique_result in Hgen as (n & -> & Hexit).
    apply exitsAt_spec in Hexit. exact Hexit.
  - destruct (generateUnique_terminates h baseId node fallback separator)
      as (k & Hk & _ & _ & Hrun).
    exists k. auto.
Qed.

Lemma earlier_attemptLoop fuel getElementById0 node base separator :
  forall attemptNumber idAttempt,
  Earlier.attemptLoop fuel getElementById0 node base separator
    attemptNumber idAttempt
  = attemptLoop fuel getElementById0 node base separator
      (attemptNumber + 1) idAttempt.
Proof.
  induction fuel as [|fuel IH]; intros n a; [reflexivity|].
  cbn [Earlier.attemptLoop attemptLoop].
  destruct (getElementById0 a) as [e|]; [|reflexivity].
  destruct (sameNode e node); [reflexivity|]. apply IH.
Qed.

(** X6.  The earlier [while] loop and the [for] loop are the same
    search: from the base the earlier [clean] gives, the earlier
    [generateUniqueFromBaseId] tries the identifiers the later one would
    try from that base, in the same order and with the same number of
    lookups; so it also returns an identifier of the form base, base +
    separator + k that no other element holds. *)
Theorem earlier_generateUnique {U : Unicode} fuel h baseId node fallback separator :
  Earlier.generateUniqueFromBaseId fuel h baseId node fallback separator
  = attemptLoop fuel (getElementById (h (ownerDocumentOf node))) node
      (Earlier.clean baseId (doctype (h (ownerDocumentOf node))) fallback separator)
      separator 1
      (Earlier.clean baseId (doctype (h (ownerDocumentOf node))) fallback separator)
  /\ (forall id,
      Earlier.generateUniqueFromBaseId fuel h baseId node fallback separator
      = Normal id ->
      (exists k,
         id = attempt (Earlier.clean baseId (doctype (h (ownerDocumentOf node)))
                         fallback separator) separator k)
      /\ (getElementById (h (ownerDocumentOf node)) id = None
          \/ exists e, node = ElementNode e
               /\ getElementById (h (ownerDocumentOf node)) id = Some e)).
Proof.
  assert (Earlier.generateUniqueFromBaseId fuel h baseId node fallback separator
          = attemptLoop fuel (getElementById (h (ownerDocumentOf node))) node
              (Earlier.clean baseId (doctype (h (ownerDocumentOf node)))
                 fallback separator) separator 1
              (Earlier.clean baseId (doctype (h (ownerDocumentOf node)))
                 fallback separator)) as Heq
    by (unfold Earlier.generateUniqueFromBaseId; apply earlier_attemptLoop).
  split; [exact Heq|]. intros id. rewrite Heq. intros Hrun.
  apply (loopAt_result _ _ _ _ fuel 0%nat) in Hrun as (n & -> & Hexit).
  split; [eauto|]. apply exitsAt_spec, Hexit.
Qed.

(** ** Instances and their copies *)

Lemma name_plain {U : Unicode} options fuel :
  Options.element options = None ->
  Options.parentNode options = None ->
  InputIdOptions.name options fuel = Normal (falsyToNull (Options.name options)).
Proof.
  intros Helement Hparent. unfold InputIdOptions.name, falsyToNull.
  destruct (truthyOpt (Options.name options)); [reflexivity|].
  unfold InputIdOptions.type, InputIdOptions.element. rewrite Helement.
  cbn [mbind Completion_bind].
  destruct (truthyOpt (Options.type options)); cbn [mbind Completion_bind];
    [|reflexivity].
  destruct (bool_decide _); [|reflexivity].
  unfold getOptionSelectElement. rewrite Hparent.
  destruct fuel; reflexivity.
Qed.

(** The constructor on an object such as [toObject] returns, with one
    property replaced or not. *)
Lemma constructor_plain {U : Unicode} fuel globalDocument options d f s b :
  Options.element options = None ->
  Options.parentNode options = None ->
  Options.formId options = None ->
  Options.ownerDocument options = Some (AnHTMLDocument d) ->
  Options.fallback options = Some f -> matchesFallbackRegex f = true ->
  Options.separator options = Some s -> isSeparator s = true ->
  Options.forceUniqueness options = Some b ->
  InputId.constructor fuel globalDocument options
  = Normal {|
      InputId._element := None;
      InputId._fallback := f;
      InputId._forceUniqueness := b;
      InputId._name := falsyToNull (Options.name options);
      InputId._value := Options.value options;
      InputId._ownerDocument := d;
      InputId._prefix := falsyToNull (Options.prefix options);
      InputId._separator := s;
      InputId._type := falsyToNull (Options.type options);
      InputId._string := None;
      InputId.frozen := false
    |}.
Proof.
  intros Helement Hparent Hform Hdoc Hf Hfv Hs Hsv Hb.
  unfold InputId.constructor.
  rewrite (name_plain options fuel Helement Hparent).
  unfold InputIdOptions.element, InputIdOptions.fallback,
    InputIdOptions.forceUniqueness, InputIdOptions.ownerDocument,
    InputIdOptions.separator, InputIdOptions.type, InputIdOptions.prefix,
    InputIdOptions.value, InputIdOptions.element.
  rewrite Helement, Hdoc, Hf, Hfv, Hs, Hsv, Hb, Hform.
  cbn [mbind Completion_bind]. unfold falsyToNull.
  destruct (truthyOpt (Options.type options)), (truthyOpt (Options.prefix options));
    reflexivity.
Qed.

(** X7.  On an instance whose fallback and separator are valid (as the
    constructor leaves them) the copy methods never throw and need no
    fuel.  The copy has the fields of the instance, but for the one the
    method sets, with two differences: it has no element, and its
    string is not computed, even when the instance is frozen. *)
Theorem copy_methods {U : Unicode} fuel globalDocument this :
  wellConfigured this ->
  (forall type,
     InputId.withType fuel globalDocument this type
     = Normal (copyWith this (Some type) (InputId._name this)
                 (InputId._value this) (InputId._forceUniqueness this)))
  /\ (forall name,
     InputId.withName fuel globalDocument this name
     = Normal (copyWith this (InputId._type this) (Some name)
                 (InputId._value this) (InputId._forceUniqueness this)))
  /\ (forall value,
     InputId.withValue fuel globalDocument this value
     = Normal (copyWith this (InputId._type this) (InputId._name this)
                 (Some value) (InputId._forceUniqueness this)))
  /\ InputId.forceUniqueness fuel globalDocument this
     = Normal (copyWith this (InputId._type this) (InputId._name this)
                 (InputId._value this) true)
  /\ InputId.ignoreUniqueness fuel globalDocument this
     = Normal (copyWith this (InputId._type this) (InputId._name this)
                 (InputId._value this) false).
Proof.
  intros [Hf Hs].
  unfold InputId.withType, InputId.withName, InputId.withValue,
    InputId.forceUniqueness, InputId.ignoreUniqueness.
  repeat split; intros;
    (erewrite constructor_plain; [reflexivity|try reflexivity..]); assumption.
Qed.

Lemma copy_methods_witness :
  InputId.forceUniqueness (U:=basicLatin) 0 NotHTMLDocument
    (InputId.memoize anonymousInstance (js "f"))
  = Normal (copyWith anonymousInstance None None None true).
Proof.
  refine (proj1 (proj2 (proj2 (proj2 (copy_methods (U:=basicLatin) 0 NotHTMLDocument
    (InputId.memoize anonymousInstance (js "f")) _))))).
  split; reflexivity.
Defined.

(** ** Finding the element of an identifier *)

Lemma toString_string {U : Unicode} fuel h this s this' :
  InputId.toString fuel h this = Normal (s, this') ->
  InputId._string this' = Some s
  /\ InputId._ownerDocument this' = InputId._ownerDocument this.
Proof.
  unfold InputId.toString. destruct (InputId._string this) as [s0|] eqn:E.
  - intros [= <- <-]. auto.
  - destruct (if InputId._forceUniqueness this then _ else _);
      cbn [mbind Completion_bind]; [|discriminate..].
    intros [= <- <-]. auto.
Qed.

Lemma assignId_same h d id e : getElementById (assignId h d id e d) id = Some e.
Proof.
  unfold getElementById, assignId. rewrite Nat.eqb_refl. cbn.
  apply lookup_insert_eq.
Qed.

(** X8.  The round trip of an identifier.  Once [toString] has
    returned [s], [getElement] on the instance answers what the lookup
    of [s] answers in the document of the instance, whatever the heap
    has become and with no fuel.  An instance that does not ask for
    uniqueness does the same when its string was not computed before,
    in any state where the document has the doctype it had: so it
    answers the element that carries [s] already, when there is one.
    After [element.id = s], for an [s] that no element holds or that
    the element holds already, both calls return that element. *)
Theorem getElement_round_trip {U : Unicode} fuel h this s this' :
  InputId.toString fuel h this = Normal (s, this') ->
  (forall fuel' h',
     InputId.getElement fuel' h' this'
     = Normal (getElementById (h' (InputId._ownerDocument this)) s, this'))
  /\ (InputId._string this = None -> InputId._forceUniqueness this = false ->
      forall fuel' h',
        doctype (h' (InputId._ownerDocument this))
        = doctype (h (InputId._ownerDocument this)) ->
        InputId.getElement fuel' h' this
        = Normal (getElementById (h' (InputId._ownerDocument this)) s, this'))
  /\ (forall e,
        assignable h (InputId._ownerDocument this) s e ->
        forall fuel',
          InputId.getElement fuel'
            (assignId h (InputId._ownerDocument this) s e) this'
          = Normal (Some e, this')
          /\ (InputId._string this = None ->
              InputId._forceUniqueness this = false ->
              InputId.getElement fuel'
                (assignId h (InputId._ownerDocument this) s e) this
              = Normal (Some e, this'))).
Proof.
  intros Hs.
  assert (forall fuel' h',
     InputId.getElement fuel' h' this'
     = Normal (getElementById (h' (InputId._ownerDocument this)) s, this')) as Hget.
  { intros fuel' h'. destruct (toString_string fuel h this s this' Hs) as [Hstr Hdoc].
    unfold InputId.getElement, InputId.toString. rewrite Hstr, Hdoc. reflexivity. }
  assert (InputId._string this = None -> InputId._forceUniqueness this = false ->
      forall fuel' h',
        doctype (h' (InputId._ownerDocument this))
        = doctype (h (InputId._ownerDocument this)) ->
        InputId.getElement fuel' h' this
        = Normal (getElementById (h' (InputId._ownerDocument this)) s, this'))
    as Hfresh.
  { intros Hnone Hforce fuel' h' Hdoctype.
    unfold InputId.toString in Hs. rewrite Hnone, Hforce in Hs.
    cbn [mbind Completion_bind] in Hs. injection Hs as <- <-.
    unfold InputId.getElement, InputId.toString. rewrite Hnone, Hforce.
    cbn [mbind Completion_bind fst snd]. rewrite Hdoctype. reflexivity. }
  split; [exact Hget|split; [exact Hfresh|]].
  intros e _ fuel'. split.
  - rewrite Hget, assignId_same. reflexivity.
  - intros Hnone Hforce.
    rewrite (Hfresh Hnone Hforce) by apply assignId_doctype.
    rewrite assignId_same. reflexivity.
Qed.

Lemma getElement_round_trip_witness :
  InputId.getElement (U:=basicLatin) 0
    (assignId emptyHeap 0%nat (js "user-name") (inputElement 1)) namedInstance
  = Normal (Some (inputElement 1),
            InputId.memoize namedInstance (js "user-name")).
Proof.
  refine (proj2 (proj2 (proj2 (getElement_round_trip (U:=basicLatin) 0 emptyHeap
    namedInstance (js "user-name")
    (InputId.memoize namedInstance (js "user-name")) _))
    (inputElement 1) _ 0%nat) _ _); try reflexivity.
  left. reflexivity.
Defined.

Lemma toString_forced {U : Unicode} fuel h this s this' :
  InputId._string this = None -> InputId._forceUniqueness this = true ->
  InputId.toString fuel h this = Normal (s, this') ->
  this' = InputId.memoize this s
  /\ (getElementById (h (ownerDocumentOf (nodeOf this))) s = None
      \/ exists e, nodeOf this = ElementNode e
           /\ getElementById (h (ownerDocumentOf (nodeOf this))) s = Some e).
Proof.
  intros Hfresh Hforce. unfold InputId.toString. rewrite Hfresh, Hforce.
  fold (nodeOf this).
  destruct (generateUniqueFromBaseId _ _ _ _ _ _) as [id| |] eqn:Hgen;
    cbn [mbind Completion_bind]; [|discriminate..].
  intros [= <- <-]. split; [reflexivity|].
  apply generateUnique_result in Hgen as (n & -> & Hexit).
  apply exitsAt_spec in Hexit. exact Hexit.
Qed.

(** X9.  An instance that asks for uniqueness never finds another
    element.  When its string is not yet computed and the document it
    looks elements up in is the one its identifier is unique in,
    [getElement] returns [null] or the element of the instance, never
    an element the instance was not made for; without an element it
    returns [null], and [getLabels] then returns the empty array. *)
Theorem getElement_forced {U : Unicode} labels fuel h this :
  InputId._string this = None ->
  InputId._forceUniqueness this = true ->
  ownerDocumentOf (nodeOf this) = InputId._ownerDocument this ->
  (forall found this',
     InputId.getElement fuel h this = Normal (found, this') ->
     found = None \/ exists e, nodeOf this = ElementNode e /\ found = Some e)
  /\ (InputId._element this = None ->
      forall found this',
        InputId.getElement fuel h this = Normal (found, this') -> found = None)
  /\ (InputId._element this = None ->
      forall l this',
        InputId.getLabels labels fuel h this = Normal (l, this') -> l = []).
Proof.
  intros Hfresh Hforce Hdoc.
  assert (forall found this',
     InputId.getElement fuel h this = Normal (found, this') ->
     found = None \/ exists e, nodeOf this = ElementNode e /\ found = Some e) as Hget.
  { intros found this'. unfold InputId.getElement.
    destruct (InputId.toString fuel h this) as [[s this'']| |] eqn:Hs;
      cbn [mbind Completion_bind fst snd]; [|discriminate..].
    intros [= <- <-].
    destruct (toString_forced fuel h this s this'' Hfresh Hforce Hs) as [_ H].
    rewrite Hdoc in H. destruct H as [->|(e & He & ->)]; eauto. }
  assert (InputId._element this = None ->
      forall found this',
        InputId.getElement fuel h this = Normal (found, this') -> found = None) as Hnone.
  { intros Helement found this' H.
    destruct (Hget found this' H) as [->|(e & He & _)]; [reflexivity|].
    unfold nodeOf in He. rewrite Helement in He. discriminate. }
  split; [exact Hget|split; [exact Hnone|]].
  intros Helement l this'. unfold InputId.getLabels.
  pose proof (Hnone Helement) as Hfound.
  destruct (InputId.getElement fuel h this) as [[found this'']| |];
    cbn [mbind Completion_bind fst snd]; [|discriminate..].
  rewrite (Hfound found this'' eq_refl). intros [= <- _]. reflexivity.
Qed.

Lemma getElement_forced_witness :
  match InputId.getElement (U:=basicLatin) 2
          (assignId emptyHeap 0%nat (js "f") (inputElement 1)) anonymousInstance
  with
  | Normal (found, _) => found = None
  | _ => False
  end.
Proof.
  pose proof (proj1 (proj2 (getElement_forced (U:=basicLatin) (fun _ => None) 2
    (assignId emptyHeap 0%nat (js "f") (inputElement 1)) anonymousInstance
    eq_refl eq_refl eq_refl)) eq_refl) as H.
  exact (H None (InputId.memoize anonymousInstance (js "f_1")) eq_refl).
Defined.

(** X10.  [forceUniqueness()] gives a copy whose string no element of
    the document holds, the element of the original instance included:
    the copy has no element, so an identifier that the original would
    keep because its own element holds it is passed over.  In a
    document with a doctype node (the documents of the model) the
    string is computed within one lookup more than the document has
    identifiers. *)
Theorem forceUniqueness_fresh {U : Unicode} fuel0 globalDocument this h :
  wellConfigured this ->
  exists copy s,
    InputId.forceUniqueness fuel0 globalDocument this = Normal copy
    /\ InputId._element copy = None
    /\ (forall fuel,
          (size (elementsById (h (InputId._ownerDocument this))) < fuel)%nat ->
          InputId.toString fuel h copy = Normal (s, InputId.memoize copy s))
    /\ (forall fuel s' copy',
          InputId.toString fuel h copy = Normal (s', copy') ->
          getElementById (h (InputId._ownerDocument this)) s' = None).
Proof.
  intros [Hf Hs].
  set (copy := copyWith this (InputId._type this) (InputId._name this)
                 (InputId._value this) true).
  destruct (toString_returns h copy eq_refl) as (s & Hret).
  exists copy, s. split; [|split; [reflexivity|split]].
  - unfold InputId.forceUniqueness.
    erewrite constructor_plain; [reflexivity|try reflexivity..]; assumption.
  - exact Hret.
  - intros fuel s' copy' H.
    destruct (toString_forced fuel h copy s' copy' eq_refl eq_refl H)
      as [_ [Hnone|(e & He & _)]]; [exact Hnone|discriminate].
Qed.

Lemma forceUniqueness_fresh_witness :
  InputId.toString (U:=basicLatin) 1
    (assignId emptyHeap 0%nat (js "f") (inputElement 1)) ownInstance
  = Normal (js "f", InputId.memoize ownInstance (js "f"))
  /\ match InputId.forceUniqueness (U:=basicLatin) 0 NotHTMLDocument ownInstance with
     | Normal copy =>
         match InputId.toString (U:=basicLatin) 2
                 (assignId emptyHeap 0%nat (js "f") (inputElement 1)) copy
         with
         | Normal (s, _) =>
             s = js "f_1"
             /\ getElementById
                  (assignId emptyHeap 0%nat (js "f") (inputElement 1) 0%nat) s
                = None
         | _ => False
         end
     | _ => False
     end.
Proof.
  split; [reflexivity|].
  destruct (forceUniqueness_fresh (U:=basicLatin) 0 NotHTMLDocument ownInstance
              (assignId emptyHeap 0%nat (js "f") (inputElement 1))
              (conj eq_refl eq_refl))
    as (copy & s & Hcopy & _ & _ & Hfree).
  injection Hcopy as <-.
  split; [reflexivity|].
  exact (Hfree 2%nat (js "f_1") _ eq_refl).
Defined.

(** ** What the constructor checks, and in which order *)

Lemma fallback_getter options f :
  InputIdOptions.fallback options = Normal f ->
  matchesFallbackRegex f = true /\ fallbackChecked options.
Proof.
  unfold InputIdOptions.fallback, fallbackChecked.
  destruct (Options.fallback options) as [s|].
  - destruct (matchesFallbackRegex s) eqn:E; [|discriminate].
    intros [= <-]. split; [exact E|]. intros s' [= <-]. exact E.
  - intros [= <-]. split; [reflexivity|discriminate].
Qed.

Lemma separator_getter options s :
  InputIdOptions.separator options = Normal s ->
  isSeparator s = true /\ separatorChecked options.
Proof.
  unfold InputIdOptions.separator, separatorChecked.
  destruct (Options.separator options) as [s'|].
  - destruct (isSeparator s') eqn:E; [|discriminate].
    intros [= <-]. split; [exact E|]. intros s'' [= <-]. exact E.
  - intros [= <-]. split; [reflexivity|discriminate].
Qed.

Lemma constructor_wellConfigured {U : Unicode} fuel globalDocument options this :
  InputId.constructor fuel globalDocument options = Normal this ->
  wellConfigured this.
Proof.
  unfold InputId.constructor. intros H.
  destruct (InputIdOptions.element options);
    cbn [mbind Completion_bind] in H; [|discriminate..].
  destruct (InputIdOptions.fallback options) as [f| |] eqn:Hf;
    cbn [mbind Completion_bind] in H; [|discriminate..].
  destruct (InputIdOptions.forceUniqueness options fuel);
    cbn [mbind Completion_bind] in H; [|discriminate..].
  destruct (InputIdOptions.name options fuel);
    cbn [mbind Completion_bind] in H; [|discriminate..].
  destruct (InputIdOptions.ownerDocument options globalDocument);
    cbn [mbind Completion_bind] in H; [|discriminate..].
  destruct (InputIdOptions.separator options) as [s| |] eqn:Hs;
    cbn [mbind Completion_bind] in H; [|discriminate..].
  destruct (InputIdOptions.type options);
    cbn [mbind Completion_bind] in H; [|discriminate..].
  injection H as <-. split; cbn.
  - exact (proj1 (fallback_getter options f Hf)).
  - exact (proj1 (separator_getter options s Hs)).
Qed.

(** X11.  On options without a [parentNode] the constructor always
    ends, and its outcome tells which check failed first, in the order
    element, fallback, owner document, separator: it throws for the
    element when that is not an [HTMLElement]; for the fallback when
    the element passes and the fallback does not, whatever the document
    and the separator are; for the document when the two before pass;
    for the separator when everything else passes.  It returns an
    instance exactly when every check passes, and the instance then
    holds a valid fallback and separator and no string. *)
Theorem constructor_first_failure {U : Unicode} fuel globalDocument options :
  Options.parentNode options = None ->
  match InputId.constructor fuel globalDocument options with
  | Normal this =>
      elementChecked options /\ fallbackChecked options
      /\ documentChecked globalDocument options /\ separatorChecked options
      /\ wellConfigured this
      /\ InputId._string this = None /\ InputId.frozen this = false
  | Throw ElementNotHTMLElement => ~ elementChecked options
  | Throw FallbackInvalid => elementChecked options /\ ~ fallbackChecked options
  | Throw OwnerDocumentNotHTMLDocument =>
      elementChecked options /\ fallbackChecked options
      /\ ~ documentChecked globalDocument options
  | Throw SeparatorInvalid =>
      elementChecked options /\ fallbackChecked options
      /\ documentChecked globalDocument options /\ ~ separatorChecked options
  | Throw _ | OutOfFuel => False
  end.
Proof.
  intros Hparent.
  destruct (Options.element options) as [[e|]|] eqn:Helement.
  2:{ unfold InputId.constructor, InputIdOptions.element. rewrite Helement.
      cbn. intros H. apply H. exact Helement. }
  all: assert (elementChecked options) as Hec
         by (unfold elementChecked; rewrite Helement; discriminate).
  all: destruct (name_returns options fuel Hec Hparent) as (name & Hname).
  all: pose proof (constructor_wellConfigured fuel globalDocument options) as Hwell.
  all: pose proof (constructor_fresh fuel globalDocument options) as Hfresh.
  all: unfold InputId.constructor in *.
  all: assert (InputIdOptions.element options
               = Normal match Options.element options with
                        | Some (AnHTMLElement e) => Some e
                        | _ => None
                        end) as He
         by (unfold InputIdOptions.element; rewrite Helement; reflexivity).
  all: rewrite He in *; cbn [mbind Completion_bind] in *.
  all: destruct (InputIdOptions.fallback options) as [f| |] eqn:Hf;
         cbn [mbind Completion_bind] in *.
  all: try (unfold InputIdOptions.fallback in Hf;
            destruct (Options.fallback options) as [s|] eqn:Hfs; [|discriminate];
            destruct (matchesFallbackRegex s) eqn:Hm; discriminate).
  all: try (unfold InputIdOptions.fallback in Hf;
            destruct (Options.fallback options) as [s|] eqn:Hfs; [|discriminate];
            destruct (matchesFallbackRegex s) eqn:Hm; [discriminate|];
            injection Hf as <-; split; [exact Hec|];
            intros H; specialize (H s Hfs); congruence).
  all: apply fallback_getter in Hf as [_ Hfc].
  all: assert (exists b, InputIdOptions.forceUniqueness options fuel = Normal b)
         as (b & Hb)
         by (unfold InputIdOptions.forceUniqueness;
             destruct (Options.forceUniqueness options); [eauto|];
             rewrite He, Hname, Helement; cbn [mbind Completion_bind]; eauto).
  all: rewrite Hb, Hname in *; cbn [mbind Completion_bind] in *.
  all: unfold InputIdOptions.ownerDocument in *; rewrite He in *.
  all: unfold documentChecked; rewrite Helement in *.
  all: destruct (Options.ownerDocument options) as [[d|]|];
         cbn [mbind Completion_bind] in *.
  all: try (destruct globalDocument as [d|]; cbn [mbind Completion_bind] in * ).
  all: try (split; [exact Hec|split; [exact Hfc|]]; intros H; apply H; reflexivity).
  all: destruct (InputIdOptions.separator options) as [s| |] eqn:Hs;
         cbn [mbind Completion_bind] in *.
  all: try (unfold InputIdOptions.separator in Hs;
            destruct (Options.separator options) as [s'|] eqn:Hss; [|discriminate];
            destruct (isSeparator s') eqn:Hm; discriminate).
  all: try (unfold InputIdOptions.separator in Hs;
            destruct (Options.separator options) as [s'|] eqn:Hss; [|discriminate];
            destruct (isSeparator s') eqn:Hm; [discriminate|];
            injection Hs as <-;
            split; [exact Hec|split; [exact Hfc|split; [try discriminate; exact I|]]];
            intros H; specialize (H s' Hss); congruence).
  all: apply separator_getter in Hs as [_ Hsc].
  all: destruct (InputIdOptions.type options) as [t| |] eqn:Ht;
         cbn [mbind Completion_bind] in *.
  all: try (exfalso; unfold InputIdOptions.type in Ht; rewrite He in Ht;
            cbn [mbind Completion_bind] in Ht;
            repeat match type of Ht with
                   | (if ?c then _ else _) = _ => destruct c
                   | match ?c with _ => _ end = _ => destruct c
                   end; discriminate).
  all: specialize (Hwell _ eq_refl); specialize (Hfresh _ eq_refl).
  all: split; [exact Hec|split; [exact Hfc|split; [try discriminate; exact I|]]].
  all: split; [exact Hsc|split; [exact Hwell|exact Hfresh]].
Qed.

Lemma constructor_first_failure_witness :
  InputId.constructor (U:=basicLatin) 0 NotHTMLDocument allInvalid
  = Throw FallbackInvalid
  /\ elementChecked allInvalid /\ ~ fallbackChecked allInvalid.
Proof.
  split; [reflexivity|].
  exact (constructor_first_failure (U:=basicLatin) 0 NotHTMLDocument allInvalid
           eq_refl).
Defined.

(** ** From the options to the identifier *)

(** The first [toString] of an instance returns one of the identifiers
    the loop tries on the cleaned assembly of the parts. *)
Lemma toString_result {U : Unicode} fuel h this s this' :
  InputId._string this = None ->
  InputId.toString fuel h this = Normal (s, this') ->
  exists n,
    s = attempt
          (clean (join (InputId.toArray this) (InputId._separator this))
             (doctype (h (consultedDocument this)))
             (InputId._fallback this) (InputId._separator this))
          (InputId._separator this) n.
Proof.
  intros Hfresh. unfold InputId.toString, consultedDocument. rewrite Hfresh.
  fold (nodeOf this). destruct (InputId._forceUniqueness this).
  - destruct (generateUniqueFromBaseId _ _ _ _ _ _) as [id| |] eqn:Hgen;
      cbn [mbind Completion_bind]; [|discriminate..].
    intros [= <- _]. apply generateUnique_result in Hgen as (n & -> & _).
    exists n. reflexivity.
  - cbn [mbind Completion_bind]. intros [= <- _]. exists 0%nat. reflexivity.
Qed.

(** X12.  Whatever instance the constructor returns, in a document
    with a doctype node (the documents of the model; [clean] reads
    [doctype.name] without a test) its [toString] returns, once the
    fuel allows one lookup more than the document has identifiers, and
    the string is an identifier: not empty, made of code points the
    document allows, and in a document that is not HTML5 of the form
    [/^[a-zA-Z][a-zA-Z0-9_-]*$/]. *)
Theorem constructed_identifier {U : Unicode} {L : UnicodeLaws U}
    fuel globalDocument options this h :
  InputId.constructor fuel globalDocument options = Normal this ->
  (exists s, forall fuel',
      (size (elementsById (h (consultedDocument this))) < fuel')%nat ->
      InputId.toString fuel' h this = Normal (s, InputId.memoize this s))
  /\ (forall fuel' s this',
        InputId.toString fuel' h this = Normal (s, this') ->
        s <> []
        /\ forallb (allowedCodePoint (doctype (h (consultedDocument this))))
             (codePoints s) = true
        /\ (isHtml5 (doctype (h (consultedDocument this))) = false ->
            matchesFallbackRegex s = true)).
Proof.
  intros Hnew.
  destruct (constructor_fresh fuel globalDocument options this Hnew) as [Hfresh _].
  destruct (constructor_wellConfigured fuel globalDocument options this Hnew)
    as [Hf Hs].
  split; [apply toString_returns, Hfresh|].
  intros fuel' s this' Hstr.
  apply toString_result in Hstr as (n & ->); [|exact Hfresh].
  set (id := join (InputId.toArray this) (InputId._separator this)).
  set (dt := doctype (h (consultedDocument this))).
  destruct (clean_allowed_all id dt _ _ Hf Hs) as [Hne Hall].
  destruct (attempt_allowed dt _ _ n Hs Hne Hall) as [Hne' Hall'].
  split; [exact Hne'|split; [exact Hall'|]].
  intros Hmode. apply attempt_valid; [|exact Hs].
  unfold clean. rewrite Hmode.
  apply finish_valid; [apply cleanedHtmlId_legacy, Hmode|exact Hf|exact Hs].
Qed.

Lemma constructed_identifier_witness :
  InputId.constructor (U:=basicLatin) 0 (AnHTMLDocument 0%nat) coloursOptions
  = Normal coloursInstance
  /\ InputId.toString (U:=basicLatin) 2 html4Heap coloursInstance
     = Normal (js "f_2-colors-_red_1",
               InputId.memoize coloursInstance (js "f_2-colors-_red_1"))
  /\ js "f_2-colors-_red_1" <> []
  /\ forallb (allowedCodePoint (U:=basicLatin)
                (doctype (html4Heap (consultedDocument coloursInstance))))
       (codePoints (js "f_2-colors-_red_1")) = true
  /\ matchesFallbackRegex (js "f_2-colors-_red_1") = true.
Proof.
  split; [reflexivity|]. split; [vm_compute; reflexivity|].
  destruct (proj2 (constructed_identifier (U:=basicLatin) (L:=basicLatin_laws)
                     0 (AnHTMLDocument 0%nat) coloursOptions coloursInstance
                     html4Heap eq_refl)
              2%nat (js "f_2-colors-_red_1")
              (InputId.memoize coloursInstance (js "f_2-colors-_red_1")))
    as (Hne & Hall & Hvalid).
  - vm_compute. reflexivity.
  - exact (conj Hne (conj Hall (Hvalid eq_refl))).
Defined.

(** X13.  Options with a name, without an element and without a
    [forceUniqueness] key give an instance that does not ask for
    uniqueness: its string is computed without a single lookup (no
    fuel is needed) and depends on the document through the doctype
    only, so it is the same whatever identifiers the document holds. *)
Theorem named_options_no_lookup {U : Unicode} globalDocument options :
  truthyOpt (Options.name options) = true ->
  Options.element options = None ->
  Options.forceUniqueness options = None ->
  (forall fuel this,
     InputId.constructor fuel globalDocument options = Normal this ->
     InputId._forceUniqueness this = false)
  /\ (forall fuel h, stringOf fuel globalDocument h options <> OutOfFuel)
  /\ (forall fuel fuel' h h',
        (forall d, doctype (h d) = doctype (h' d)) ->
        stringOf fuel globalDocument h options
        = stringOf fuel' globalDocument h' options).
Proof.
  intros Hname Helement Hforce.
  assert (forall fuel, InputIdOptions.name options fuel = Normal (Options.name options))
    as Hn by (intros fuel; unfold InputIdOptions.name; rewrite Hname; reflexivity).
  assert (forall fuel, InputIdOptions.forceUniqueness options fuel = Normal false)
    as Hb.
  { intros fuel. unfold InputIdOptions.forceUniqueness, InputIdOptions.element.
    rewrite Hforce, Helement. cbn [mbind Completion_bind].
    rewrite Hn. cbn [mbind Completion_bind]. rewrite Hname. reflexivity. }
  assert (forall fuel,
            InputId.constructor fuel globalDocument options
            = InputId.constructor 0 globalDocument options) as Hsame.
  { intros fuel. unfold InputId.constructor.
    rewrite (Hb fuel), (Hb 0%nat), (Hn fuel), (Hn 0%nat). reflexivity. }
  assert (forall fuel this,
     InputId.constructor fuel globalDocument options = Normal this ->
     InputId._forceUniqueness this = false /\ InputId._string this = None)
    as Hflag.
  { intros fuel this Hnew. split;
      [|apply (constructor_fresh fuel globalDocument options this Hnew)].
    unfold InputId.constructor in Hnew. rewrite Hb in Hnew.
    repeat match type of Hnew with
      | (mbind _ ?c) = _ => destruct c; cbn [mbind Completion_bind] in Hnew;
                            try discriminate
      end.
    injection Hnew as <-. reflexivity. }
  split; [intros fuel this Hnew; apply (Hflag fuel this Hnew)|].
  assert (forall fuel h,
            stringOf fuel globalDocument h options
            = this ← InputId.constructor 0 globalDocument options;
              Normal (clean (join (InputId.toArray this) (InputId._separator this))
                        (doctype (h (InputId._ownerDocument this)))
                        (InputId._fallback this) (InputId._separator this)))
    as Hstring.
  { intros fuel h. unfold stringOf. rewrite Hsame.
    destruct (InputId.constructor 0 globalDocument options) as [this| |] eqn:Hnew;
      cbn [mbind Completion_bind]; [|reflexivity..].
    destruct (Hflag _ _ Hnew) as [Hfalse Hfresh].
    unfold InputId.toString. rewrite Hfresh, Hfalse. reflexivity. }
  split.
  - intros fuel h. rewrite Hstring.
    destruct (InputId.constructor 0 globalDocument options) as [this| |] eqn:Hnew;
      cbn [mbind Completion_bind]; try discriminate.
    exfalso. unfold InputId.constructor in Hnew.
    unfold InputIdOptions.element in Hnew. rewrite Helement, Hb, Hn in Hnew.
    cbn [mbind Completion_bind] in Hnew.
    destruct (InputIdOptions.fallback options) eqn:E1;
      cbn [mbind Completion_bind] in Hnew; try discriminate;
      [|exact (fallback_ends options E1)].
    destruct (InputIdOptions.ownerDocument options globalDocument) eqn:E2;
      cbn [mbind Completion_bind] in Hnew; try discriminate;
      [|exact (ownerDocument_ends options globalDocument E2)].
    destruct (InputIdOptions.separator options) eqn:E3;
      cbn [mbind Completion_bind] in Hnew; try discriminate;
      [|exact (separator_ends options E3)].
    destruct (InputIdOptions.type options) eqn:E4;
      cbn [mbind Completion_bind] in Hnew; try discriminate.
    exact (type_ends options E4).
  - intros fuel fuel' h h' Hdoc. rewrite !Hstring.
    destruct (InputId.constructor 0 globalDocument options) as [this| |];
      cbn [mbind Completion_bind]; [|reflexivity..].
    rewrite Hdoc. reflexivity.
Qed.

Lemma named_options_no_lookup_witness :
  stringOf (U:=basicLatin) 0 (AnHTMLDocument 0%nat) emptyHeap
    (bag None (Some "username"%string) None None None None)
  = stringOf (U:=basicLatin) 3 (AnHTMLDocument 0%nat)
      (assignId emptyHeap 0%nat (js "username") (inputElement 1))
      (bag None (Some "username"%string) None None None None).
Proof.
  refine (proj2 (proj2 (named_options_no_lookup (U:=basicLatin)
            (AnHTMLDocument 0%nat)
            (bag None (Some "username"%string) None None None None) _ _ _))
          0%nat 3%nat emptyHeap
          (assignId emptyHeap 0%nat (js "username") (inputElement 1)) _);
    try reflexivity.
  intros d. unfold assignId. destruct (Nat.eqb d 0); reflexivity.
Defined.

Lemma getOptionSelectElement_parent {U : Unicode} options options' fuel :
  Options.parentNode options = Options.parentNode options' ->
  getOptionSelectElement fuel options = getOptionSelectElement fuel options'.
Proof.
  intros Hparent. unfold getOptionSelectElement. rewrite <- Hparent.
  assert (forall ancestor,
            getOptionSelectElementLoop fuel options ancestor
            = getOptionSelectElementLoop fuel options' ancestor) as H; [|apply H].
  induction fuel as [|fuel IH]; intros ancestor; [reflexivity|].
  cbn [getOptionSelectElementLoop]. destruct ancestor as [a|]; [|reflexivity].
  destruct (Ancestor.tagName a); [|reflexivity].
  destruct (bool_decide _); [reflexivity|]. rewrite <- Hparent. apply IH.
Qed.

Lemma name_spreadValue {U : Unicode} options value fuel :
  InputIdOptions.name (spreadValue options value) fuel
  = InputIdOptions.name options fuel.
Proof.
  unfold InputIdOptions.name.
  rewrite (getOptionSelectElement_parent (spreadValue options value) options fuel)
    by reflexivity.
  reflexivity.
Qed.

(** X14.  The value counts only for the types [checkbox], [radio] and
    [option]: when the type the options resolve to is another one, or
    none, the string of the instance is the same whatever value the
    options carry, and the same as without a value. *)
Theorem value_ignored {U : Unicode} fuel globalDocument h options type :
  InputIdOptions.type options = Normal type ->
  usesValue type = false ->
  forall value,
    stringOf fuel globalDocument h (spreadValue options value)
    = stringOf fuel globalDocument h options.
Proof.
  intros Htype Huses value. unfold stringOf, InputId.constructor.
  change (InputIdOptions.element (spreadValue options value))
    with (InputIdOptions.element options).
  change (InputIdOptions.fallback (spreadValue options value))
    with (InputIdOptions.fallback options).
  replace (InputIdOptions.forceUniqueness (spreadValue options value) fuel)
    with (InputIdOptions.forceUniqueness options fuel)
    by (unfold InputIdOptions.forceUniqueness; rewrite name_spreadValue;
        reflexivity).
  rewrite name_spreadValue.
  change (InputIdOptions.ownerDocument (spreadValue options value) globalDocument)
    with (InputIdOptions.ownerDocument options globalDocument).
  change (InputIdOptions.prefix (spreadValue options value))
    with (InputIdOptions.prefix options).
  change (InputIdOptions.separator (spreadValue options value))
    with (InputIdOptions.separator options).
  change (InputIdOptions.type (spreadValue options value))
    with (InputIdOptions.type options).
  rewrite Htype.
  destruct (InputIdOptions.element options) as [e| |];
    cbn [mbind Completion_bind]; [|reflexivity..].
  destruct (InputIdOptions.fallback options) as [f| |];
    cbn [mbind Completion_bind]; [|reflexivity..].
  destruct (InputIdOptions.forceUniqueness options fuel) as [b| |];
    cbn [mbind Completion_bind]; [|reflexivity..].
  destruct (InputIdOptions.name options fuel) as [n| |];
    cbn [mbind Completion_bind]; [|reflexivity..].
  destruct (InputIdOptions.ownerDocument options globalDocument) as [d| |];
    cbn [mbind Completion_bind]; [|reflexivity..].
  destruct (InputIdOptions.separator options) as [s| |];
    cbn [mbind Completion_bind]; [|reflexivity..].
  unfold InputId.toString, InputId.toArray, InputIdOptions.value.
  cbn [InputId._string InputId._type InputId._value InputId._prefix
       InputId._name InputId._separator InputId._forceUniqueness
       InputId._element InputId._fallback InputId._ownerDocument
       spreadValue Options.value].
  destruct type as [t|]; cbn [usesValue] in Huses.
  - rewrite Huses. destruct (Options.value options);
      destruct b; cbn [mbind Completion_bind];
      first [reflexivity
            |destruct (generateUniqueFromBaseId _ _ _ _ _ _); reflexivity].
  - destruct b; cbn [mbind Completion_bind];
      first [reflexivity
            |destruct (generateUniqueFromBaseId _ _ _ _ _ _); reflexivity].
Qed.

Lemma value_ignored_witness :
  stringOf (U:=basicLatin) 1 (AnHTMLDocument 0%nat) emptyHeap
    (spreadValue (bag (Some "text"%string) (Some "a"%string) None None None None)
       (js "1"))
  = stringOf (U:=basicLatin) 1 (AnHTMLDocument 0%nat) emptyHeap
      (bag (Some "text"%string) (Some "a"%string) None None None None).
Proof.
  apply (value_ignored (U:=basicLatin) 1 (AnHTMLDocument 0%nat) emptyHeap
           (bag (Some "text"%string) (Some "a"%string) None None None None)
           (Some (js "text"))); reflexivity.
Defined.

(** ** The [select] of an [option] *)

(** X15.  [getOptionSelectElement] looks at the parent only.  It
    returns [null] when the option has no parent and the parent when
    that is a [select], after one turn of the loop; it throws when the
    parent has no [tagName]; and when the parent is an element other
    than a [select] it never returns, since the loop reads the parent of
    the option again instead of the parent of the ancestor.  So
    whatever it returns is [null] or the parent itself. *)
Theorem getOptionSelectElement_cases {U : Unicode} options :
  (Options.parentNode options = None ->
   forall fuel, getOptionSelectElement fuel options = Normal None)
  /\ (forall parent tagName,
        Options.parentNode options = Some parent ->
        Ancestor.tagName parent = Some tagName ->
        toLowerCase tagName = js "select" ->
        forall fuel, getOptionSelectElement (S fuel) options = Normal (Some parent))
  /\ (forall parent,
        Options.parentNode options = Some parent ->
        Ancestor.tagName parent = None ->
        forall fuel, getOptionSelectElement (S fuel) options = Throw UndefinedProperty)
  /\ (forall parent tagName,
        Options.parentNode options = Some parent ->
        Ancestor.tagName parent = Some tagName ->
        toLowerCase tagName <> js "select" ->
        forall fuel, getOptionSelectElement fuel options = OutOfFuel)
  /\ (forall fuel found,
        getOptionSelectElement fuel options = Normal (Some found) ->
        Options.parentNode options = Some found
        /\ exists tagName, Ancestor.tagName found = Some tagName
             /\ toLowerCase tagName = js "select").
Proof.
  split; [|split; [|split; [|split]]].
  - intros Hparent fuel. unfold getOptionSelectElement. rewrite Hparent.
    destruct fuel; reflexivity.
  - intros parent tagName Hparent Htag Hselect fuel.
    unfold getOptionSelectElement. rewrite Hparent.
    cbn [getOptionSelectElementLoop]. rewrite Htag.
    rewrite bool_decide_eq_true_2 by exact Hselect. reflexivity.
  - intros parent Hparent Htag fuel.
    unfold getOptionSelectElement. rewrite Hparent.
    cbn [getOptionSelectElementLoop]. rewrite Htag. reflexivity.
  - intros parent tagName. apply getOptionSelectElement_hangs.
  - intros fuel found. unfold getOptionSelectElement.
    destruct (Options.parentNode options) as [parent|] eqn:Hparent.
    + induction fuel as [|fuel IH]; [discriminate|].
      cbn [getOptionSelectElementLoop].
      destruct (Ancestor.tagName parent) as [tagName|] eqn:Htag; [|discriminate].
      destruct (bool_decide (toLowerCase tagName = js "select")) eqn:Hselect.
      * intros [= <-]. split; [reflexivity|]. exists tagName.
        split; [exact Htag|]. apply bool_decide_eq_true in Hselect. exact Hselect.
      * rewrite Hparent. exact IH.
    + destruct fuel; discriminate.
Qed.

Lemma getOptionSelectElement_cases_witness :
  getOptionSelectElement (U:=basicLatin) 1000 optionInDiv = OutOfFuel.
Proof.
  refine (proj1 (proj2 (proj2 (proj2
    (getOptionSelectElement_cases (U:=basicLatin) optionInDiv))))
    {| Ancestor.tagName := Some (js "DIV"); Ancestor.name := None |} (js "DIV")
    eq_refl eq_refl _ 1000%nat).
  discriminate.
Defined.

(** ** The earlier [clean] *)

Lemma Dropped_refl s : Dropped s s.
Proof. induction s; constructor; auto. Qed.

Lemma Dropped_take_drop k : forall t,
  forallb isHU (take k t) = true -> Dropped t (drop k t).
Proof.
  induction k as [|k IH]; intros t Ht; [apply Dropped_refl|].
  destruct t as [|c t]; [constructor|]. cbn in Ht.
  apply andb_true_iff in Ht as [Hc Ht]. apply Dropped_drop; auto.
Qed.

Lemma replaceFirstFrom_Dropped re rep :
  dropsOnly re rep ->
  forall s b, Dropped s (Earlier.replaceFirstFrom re rep b s).
Proof.
  intros Hre s. induction s as [|c t IH]; intros b; cbn; [constructor|].
  destruct (re b (c :: t)) as [k|] eqn:E.
  - destruct (Hre _ _ _ _ E) as [[[-> Hc] | ->] Hk]; cbn.
    + apply Dropped_drop; [exact Hc|]. apply Dropped_take_drop, Hk.
    + apply Dropped_keep. apply Dropped_take_drop, Hk.
  - apply Dropped_keep, IH.
Qed.

Lemma Dropped_Forall (P : N -> Prop) s s' :
  Dropped s s' -> Forall P s -> Forall P s'.
Proof.
  induction 1 as [|c s s' _ IH|c s s' _ _ IH]; intros Hs; [constructor|..];
    apply Forall_cons_iff in Hs as [Hc Hs]; [constructor|]; auto.
Qed.

Section EarlierClean.
Context {U : Unicode} {L : UnicodeLaws U}.

Lemma earlier_stripped_Dropped uncleanedId doctype0 :
  exists s s',
    Earlier.cleanedHtmlId uncleanedId doctype0 = toLowerCase s'
    /\ Dropped
         (replaceInvalid doctype0
            (replaceAll combiningMarksRegex [] (normalizeNFKD uncleanedId))) s
    /\ Dropped s s'.
Proof.
  eexists _, _. split; [reflexivity|]. split.
  - apply (replaceFirstFrom_Dropped _ _ hyphensRegex_dropsOnly _ true).
  - apply (replaceFirstFrom_Dropped _ _ endsRegex_dropsOnly _ true).
Qed.

Lemma earlier_cleanedHtmlId_html5 uncleanedId doctype0 :
  isHtml5 doctype0 = true ->
  forallb html5Class (codePoints (Earlier.cleanedHtmlId uncleanedId doctype0)) = true.
Proof.
  intros Hmode.
  destruct (earlier_stripped_Dropped uncleanedId doctype0) as (s & s' & -> & H1 & H2).
  apply toLowerCase_html5Class, Paired_codePoints.
  eapply Paired_Dropped; [|exact H2].
  eapply Paired_Dropped; [|exact H1].
  unfold replaceInvalid. rewrite Hmode. apply replaceInvalidHtml5_Paired.
Qed.

Lemma earlier_cleanedHtmlId_legacy uncleanedId doctype0 :
  isHtml5 doctype0 = false ->
  Forall (fun c => legacyClass c = true) (Earlier.cleanedHtmlId uncleanedId doctype0).
Proof.
  intros Hmode.
  destruct (earlier_stripped_Dropped uncleanedId doctype0) as (s & s' & -> & H1 & H2).
  assert (Forall (fun c => legacyClass c = true) s') as Hs.
  { eapply Dropped_Forall; [exact H2|]. eapply Dropped_Forall; [exact H1|].
    unfold replaceInvalid. rewrite Hmode. apply replaceAll_legacyInvalid. }
  rewrite toLowerCase_ascii.
  - apply Forall_map. eapply Forall_impl; [exact Hs|].
    intros c Hc. apply legacyClass_asciiLower, Hc.
  - apply forallb_Forall. eapply Forall_impl; [exact Hs|].
    intros c Hc. apply legacyClass_ascii, Hc.
Qed.

End EarlierClean.

(** X16.  The earlier [clean], whose collapsing and end-stripping
    patterns replace their first match only, gives the same guarantees
    as the current one: with a valid fallback and a valid separator it
    never returns the empty string, every code point of what it returns
    is allowed in the document, and in a document that is not HTML5 the
    result has the form [/^[a-zA-Z][a-zA-Z0-9_-]*$/]. *)
Theorem earlier_clean_identifier {U : Unicode} {L : UnicodeLaws U}
    uncleanedId doctype0 fallback separator :
  matchesFallbackRegex fallback = true ->
  isSeparator separator = true ->
  Earlier.clean uncleanedId doctype0 fallback separator <> []
  /\ forallb (allowedCodePoint doctype0)
       (codePoints (Earlier.clean uncleanedId doctype0 fallback separator)) = true
  /\ (isHtml5 doctype0 = false ->
      matchesFallbackRegex (Earlier.clean uncleanedId doctype0 fallback separator)
      = true).
Proof.
  intros Hf Hs.
  pose proof (matchesFallbackRegex_legacy fallback Hf) as Hfl.
  split; [|split].
  - unfold Earlier.clean.
    destruct (Earlier.cleanedHtmlId uncleanedId doctype0) as [|c t];
      cbn [List.length Nat.eqb].
    + destruct fallback; [discriminate|congruence].
    + destruct (negb (isHtml5 doctype0) && firstIsNotLetter (c :: t));
        [destruct fallback; discriminate|discriminate].
  - unfold Earlier.clean.
    destruct (Earlier.cleanedHtmlId uncleanedId doctype0) as [|c t] eqn:E;
      cbn [List.length Nat.eqb].
    + apply legacy_allowed, Hfl.
    + destruct (isHtml5 doctype0) eqn:Hmode; cbn [negb andb].
      * rewrite <- E. unfold allowedCodePoint. rewrite Hmode.
        apply earlier_cleanedHtmlId_html5, Hmode.
      * pose proof (earlier_cleanedHtmlId_legacy uncleanedId doctype0 Hmode) as Hc.
        rewrite E in Hc.
        destruct (firstIsNotLetter (c :: t)).
        -- apply legacy_allowed. apply Forall_app. split; [exact Hfl|].
           apply Forall_app. split; [apply isSeparator_legacy, Hs|exact Hc].
        -- apply legacy_allowed, Hc.
  - intros Hmode. unfold Earlier.clean. rewrite Hmode.
    apply finish_valid;
      [apply earlier_cleanedHtmlId_legacy, Hmode|exact Hf|exact Hs].
Qed.

Lemma earlier_clean_identifier_witness :
  Earlier.clean (U:=basicLatin) (js "--a--b--") html4Doctype (js "f") (js "_") <> [].
Proof.
  refine (proj1 (earlier_clean_identifier (U:=basicLatin) (L:=basicLatin_laws)
                   (js "--a--b--") html4Doctype (js "f") (js "_") _ _));
    reflexivity.
Defined.

(** ** The labels of the element found *)

(** X17.  Once [toString] has returned [s], [getLabels] gives the
    labels of the element that holds [s] in the document of the
    instance; and it throws when that element has no [labels] property
    (an element that is not labelable), although an element was
    found. *)
Theorem getLabels_of_found {U : Unicode} labels fuel h this s this' h' e :
  InputId.toString fuel h this = Normal (s, this') ->
  getElementById (h' (InputId._ownerDocument this)) s = Some e ->
  forall fuel',
    InputId.getLabels labels fuel' h' this'
    = match labels e with
      | Some l => Normal (l, this')
      | None => Throw UndefinedProperty
      end.
Proof.
  intros Hs He fuel'.
  destruct (toString_string fuel h this s this' Hs) as [Hstr Hdoc].
  unfold InputId.getLabels, InputId.getElement, InputId.toString.
  rewrite Hstr, Hdoc. cbn [mbind Completion_bind fst snd]. rewrite He.
  reflexivity.
Qed.

Lemma getLabels_of_found_witness :
  InputId.getLabels (U:=basicLatin) (fun _ => None) 0
    (assignId emptyHeap 0%nat (js "f") (inputElement 1))
    (InputId.memoize anonymousInstance (js "f"))
  = Throw UndefinedProperty.
Proof.
  refine (getLabels_of_found (U:=basicLatin) (fun _ => None) 1 emptyHeap
            anonymousInstance (js "f") (InputId.memoize anonymousInstance (js "f"))
            (assignId emptyHeap 0%nat (js "f") (inputElement 1)) (inputElement 1)
            _ _ 0%nat); vm_compute; reflexivity.
Defined.
